(** * Order-to-production pipeline of the storefront customizer back end

    A shallow embedding of the Express/Mongoose server: the default
    catalog created by [GET /api/settings/:shop], the candidate extraction
    and queueing done by [POST /webhooks/orders/create], and
    [generateProductionFile].

    Modelling conventions.
    - A JavaScript string is a [string]; its bytes are read as the UTF-8
      encoding of the text, so [===] is equality, [split(',')] cuts at the
      byte [","] and [trim] removes the encodings of the ECMAScript
      WhiteSpace and LineTerminator code points.
    - [String.prototype.toUpperCase] needs the Unicode case tables; it is
      a parameter of the development ([toUpperCase]), and [asciiUpper] is
      an instance that agrees with it on ASCII text.
    - The [props] object of the handler is a [gmap string string] holding
      its own keys: line item property names and values are strings, every
      name is an ordinary key of the object except [__proto__], under which
      an assignment of a string creates no key, and none of the keys the
      code reads is inherited from [Object.prototype].
    - [order.id] is the parsed number, an integer; [Number.prototype.toString]
      is a parameter of the development ([numberToString]), and [decimal] is
      the instance that agrees with it on integers below 10^21 in magnitude.
    - A [Date] is its time value in milliseconds, a [Z];
      [toISOString] is an injective rendering of it and is left implicit.
    - Mongoose documents are records; the [_id] of a queue entry is its
      position in the collection. Persistence calls are asynchronous calls
      that may reject: the world carries the list of coming outcomes. *)

From Stdlib Require Import ZArith Ascii String.
From stdpp Require Import gmap strings list fin_maps pretty.

Open Scope Z_scope.
Open Scope string_scope.
Open Scope list_scope.

(** ** Host string operations *)

Definition bytes (l : list nat) : string :=
  foldr (λ n s, String (ascii_of_nat n) s) EmptyString l.

(** UTF-8 encodings of U+0009..U+000D, U+0020, U+00A0, U+1680,
    U+2000..U+200A, U+2028, U+2029, U+202F, U+205F, U+3000 and U+FEFF. *)
Definition whiteSpace : list string :=
  bytes <$>
    [ [9]; [10]; [11]; [12]; [13]; [32]; [194; 160]; [225; 154; 128];
      [226; 128; 128]; [226; 128; 129]; [226; 128; 130]; [226; 128; 131];
      [226; 128; 132]; [226; 128; 133]; [226; 128; 134]; [226; 128; 135];
      [226; 128; 136]; [226; 128; 137]; [226; 128; 138];
      [226; 128; 168]; [226; 128; 169]; [226; 128; 175];
      [226; 129; 159]; [227; 128; 128]; [239; 187; 191] ]%nat.

Fixpoint dropPrefix (p s : string) : option string :=
  match p, s with
  | EmptyString, _ => Some s
  | String a p', String b s' =>
      if Ascii.eqb a b then dropPrefix p' s' else None
  | String _ _, EmptyString => None
  end.

Fixpoint dropOneOf (ws : list string) (s : string) : option string :=
  match ws with
  | [] => None
  | w :: ws' =>
      match dropPrefix w s with
      | Some r => Some r
      | None => dropOneOf ws' s
      end
  end.

Fixpoint trimStartN (fuel : nat) (ws : list string) (s : string) : string :=
  match fuel with
  | O => s
  | S fuel' =>
      match dropOneOf ws s with
      | Some r => trimStartN fuel' ws r
      | None => s
      end
  end.

Definition trimStart (s : string) : string :=
  trimStartN (String.length s) whiteSpace s.

Definition trimEnd (s : string) : string :=
  String.rev
    (trimStartN (String.length s) (String.rev <$> whiteSpace) (String.rev s)).

Definition trim (s : string) : string := trimEnd (trimStart s).

(** [s.split(sep)] for a one-character separator. *)
Fixpoint split (sep : ascii) (s : string) : list string :=
  match s with
  | EmptyString => [EmptyString]
  | String c r =>
      if Ascii.eqb c sep then EmptyString :: split sep r
      else match split sep r with
           | h :: t => String c h :: t
           | [] => [String c EmptyString]
           end
  end.

Definition asciiUpperChar (c : ascii) : ascii :=
  let n := nat_of_ascii c in
  if ((97 <=? n) && (n <=? 122))%nat then ascii_of_nat (n - 32) else c.

Fixpoint asciiUpper (s : string) : string :=
  match s with
  | EmptyString => EmptyString
  | String c r => String (asciiUpperChar c) (asciiUpper r)
  end.

(** The decimal numeral of an integer: what [Number.prototype.toString]
    gives for an integer below 10^21 in magnitude. *)
Definition decimal (n : Z) : string := pretty n.

(** Truthiness of the value read at a key: [undefined] and [''] are falsy. *)
Definition truthy (v : option string) : bool :=
  match v with
  | Some s => negb (String.eqb s "")
  | None => false
  end.

(** [a || rest] on such values. *)
Definition orElse {A} (v : option string) (k : string → A) (rest : A) : A :=
  match v with
  | Some s => if String.eqb s "" then rest else k s
  | None => rest
  end.

(** ** Data model *)

Module TextOption.
Record t := mk { id : Z; name : string; maxLength : Z; basePrice : Z }.
End TextOption.

Module Coordinates.
Record t := mk
  { x : Z; y : Z; maxWidth : Z; maxHeight : Z; rotation : option Z }.
End Coordinates.

Module Placement.
Record t := mk
  { id : Z; name : string; code : string; price : Z;
    coordinates : Coordinates.t }.
End Placement.

Module Font.
Record t := mk
  { id : Z; name : string; code : string; price : Z;
    fontFile : string; displayName : string }.
End Font.

Module GlobalSettings.
Record t := mk
  { shopDomain : string;
    textOptions : list TextOption.t;
    placements : list Placement.t;
    fonts : list Font.t;
    updatedAt : Z }.
End GlobalSettings.

Module Property.
Record t := mk { name : string; value : string }.
End Property.

Module LineItem.
Record t := mk
  { id : Z; product_id : Z; variant_id : Z; sku : string; title : string;
    quantity : Z; properties : option (list Property.t) }.
End LineItem.

Module Customer.
Record t := mk { first_name : option string; last_name : option string }.
End Customer.

Module Order.
Record t := mk
  { id : Z; name : string; email : string; customer : option Customer.t;
    created_at : string; line_items : list LineItem.t }.
End Order.

Module CustomizedItem.
Record t := mk
  { lineItemId : Z; productId : Z; variantId : Z; sku : string;
    title : string; quantity : Z; properties : gmap string string }.
End CustomizedItem.

Module QueueCustomer.
Record t := mk { email : string; name : string }.
End QueueCustomer.

Module OrderData.
Record t := mk { customer : QueueCustomer.t; createdAt : string }.
End OrderData.

Module Status.
Inductive t := pending | processing | completed | error.
End Status.

Module QueueEntry.
Record t := mk
  { _id : nat;
    shopDomain : string;
    orderId : string;
    orderNumber : string;
    orderData : OrderData.t;
    items : list CustomizedItem.t;
    status : Status.t;
    processedAt : option Z;
    error : option string;
    createdAt : Z }.
End QueueEntry.

Module Customization.
Record t := mk
  { type : string; value : string; placement : string; font : string;
    color : string; coordinates : Coordinates.t }.
End Customization.

Module ProductionLineItem.
Record t := mk
  { id : Z; product_id : Z; variant_id : Z; sku : string; title : string;
    quantity : Z; customizations : list Customization.t }.
End ProductionLineItem.

Module ProductionData.
Record t := mk
  { order_id : string; order_number : string; created_at : Z;
    customer : QueueCustomer.t; line_items : list ProductionLineItem.t }.
End ProductionData.


(** ** The catalog created on first access ([GET /api/settings/:shop]) *)

Definition defaultTextOptions : list TextOption.t :=
  [ TextOption.mk 1 "Player Name" 15 0;
    TextOption.mk 2 "Custom Text" 25 0;
    TextOption.mk 3 "Jersey Number" 3 0 ].

Definition defaultPlacements : list Placement.t :=
  [ Placement.mk 1 "Chest" "chest" 5 (Coordinates.mk 360 250 200 60 None);
    Placement.mk 2 "Back" "back" 5 (Coordinates.mk 360 300 280 100 None);
    Placement.mk 3 "Left Sleeve" "left_sleeve" 7
      (Coordinates.mk 150 320 80 40 (Some (-90)));
    Placement.mk 4 "Right Sleeve" "right_sleeve" 7
      (Coordinates.mk 150 320 80 40 (Some (-90))) ].

Definition defaultFonts : list Font.t :=
  [ Font.mk 1 "Standard" "standard" 0 "Arial" "Standard Font (Free)";
    Font.mk 2 "Varsity" "varsity" 3 "Impact" "Varsity Style (+$3)";
    Font.mk 3 "Script" "script" 5 "BrushScriptMT" "Script Style (+$5)";
    Font.mk 4 "Modern" "modern" 3 "HelveticaNeue-Light" "Modern Style (+$3)" ].

(** The document handed to [GlobalSettings.create]; [updatedAt] takes the
    schema default [Date.now]. *)
Definition defaultSettings (shop : string) (now : Z) : GlobalSettings.t :=
  GlobalSettings.mk shop defaultTextOptions defaultPlacements defaultFonts now.

(** ** Candidate extraction (the loop over [order.line_items]) *)

(** [item.properties.forEach(prop => { props[prop.name] = prop.value })]
    on [props = {}]: the assignment creates or overwrites the key, except
    under the name [__proto__], where it runs the setter inherited from
    [Object.prototype], which ignores a string: no key is created. *)
Definition buildProps (properties : list Property.t) : gmap string string :=
  fold_left
    (λ props prop,
       if decide (Property.name prop = "__proto__") then props
       else <[Property.name prop := Property.value prop]> props)
    properties ∅.

(** [props['Custom Text'] || props['Player Name'] ||
     props['Jersey Number'] || props['Custom Message']] as a condition. *)
Definition hasCustomization (props : gmap string string) : bool :=
  truthy (props !! "Custom Text") || truthy (props !! "Player Name")
  || truthy (props !! "Jersey Number") || truthy (props !! "Custom Message").

Definition toCustomizedItem (item : LineItem.t) (props : gmap string string)
  : CustomizedItem.t :=
  {| CustomizedItem.lineItemId := LineItem.id item;
     CustomizedItem.productId := LineItem.product_id item;
     CustomizedItem.variantId := LineItem.variant_id item;
     CustomizedItem.sku := LineItem.sku item;
     CustomizedItem.title := LineItem.title item;
     CustomizedItem.quantity := LineItem.quantity item;
     CustomizedItem.properties := props |}.

(** One turn of the [for (const item of order.line_items)] loop. *)
Definition extractStep (customizedItems : list CustomizedItem.t)
    (item : LineItem.t) : list CustomizedItem.t :=
  match LineItem.properties item with
  | Some properties =>
      if (0 <? length properties)%nat then
        let props := buildProps properties in
        if hasCustomization props
        then customizedItems ++ [toCustomizedItem item props]
        else customizedItems
      else customizedItems
  | None => customizedItems
  end.

Definition extractCustomizedItems (order : Order.t) : list CustomizedItem.t :=
  fold_left extractStep (Order.line_items order) [].

(** ** Interpretation of one queued item (body of the compile loop) *)

(** [props['Placement'] ? props['Placement'].split(',').map(p => p.trim()) : []] *)
Definition placementNames (props : gmap string string) : list string :=
  orElse (props !! "Placement") (λ s, trim <$> split "," s) [].

(** [props['Custom Text'] || props['Player Name'] ||
     props['Jersey Number'] || props['Custom Message'] || ''] *)
Definition customTextOf (props : gmap string string) : string :=
  orElse (props !! "Custom Text") id
    (orElse (props !! "Player Name") id
       (orElse (props !! "Jersey Number") id
          (orElse (props !! "Custom Message") id ""))).

(** [props['Font Style'] || 'Standard Font (Free)'] *)
Definition fontDisplayOf (props : gmap string string) : string :=
  orElse (props !! "Font Style") id "Standard Font (Free)".

(** [settings?.fonts.find(f => f.displayName === fontDisplay) || settings?.fonts[0]] *)
Definition findFont (settings : option GlobalSettings.t) (fontDisplay : string)
  : option Font.t :=
  match settings with
  | None => None
  | Some s =>
      match List.find (λ f, bool_decide (Font.displayName f = fontDisplay))
              (GlobalSettings.fonts s) with
      | Some f => Some f
      | None => head (GlobalSettings.fonts s)
      end
  end.

(** [font?.code || 'standard'] *)
Definition fontCodeOf (font : option Font.t) : string :=
  orElse (Font.code <$> font) id "standard".

(** [settings?.placements.find(p => p.name === placementName)] *)
Definition findPlacement (settings : option GlobalSettings.t)
    (placementName : string) : option Placement.t :=
  match settings with
  | None => None
  | Some s =>
      List.find (λ p, bool_decide (Placement.name p = placementName))
        (GlobalSettings.placements s)
  end.

(** ** Effects: persistence, clock, console *)

Record Error := mkError { message : string }.

Inductive Result (A : Type) : Type :=
  | Ok (a : A)
  | Throw (e : Error).
Arguments Ok {A} a.
Arguments Throw {A} e.

(** The collections, the clock, the outcomes of the coming persistence calls
    ([Some msg]: the call rejects with [Error(msg)]; [None] or no entry: it
    succeeds) and the production records written to the console. *)
Record World := mkWorld
  { settingsDb : gmap string GlobalSettings.t;
    queueDb : list QueueEntry.t;
    clock : Z;
    faults : list (option string);
    console : list ProductionData.t }.

Definition M (S A : Type) : Type := S → Result A * S.

Definition ret {S A} (a : A) : M S A := λ s, (Ok a, s).

Definition bind {S A B} (m : M S A) (f : A → M S B) : M S B := λ s,
  match m s with
  | (Ok a, s') => f a s'
  | (Throw e, s') => (Throw e, s')
  end.

Notation "x <- m ;; k" := (bind m (λ x, k))
  (at level 100, m at next level, right associativity).
Notation "m ;;; k" := (bind m (λ _, k))
  (at level 100, right associativity).

(** [try { body } catch (error) { handler error }] *)
Definition tryCatch {S A} (body : M S A) (handler : Error → M S A) : M S A :=
  λ s,
    match body s with
    | (Ok a, s') => (Ok a, s')
    | (Throw e, s') => handler e s'
    end.

Definition setFaults (f : list (option string)) (w : World) : World :=
  mkWorld (settingsDb w) (queueDb w) (clock w) f (console w).

Definition setSettingsDb (d : gmap string GlobalSettings.t) (w : World) : World :=
  mkWorld d (queueDb w) (clock w) (faults w) (console w).

Definition setQueueDb (d : list QueueEntry.t) (w : World) : World :=
  mkWorld (settingsDb w) d (clock w) (faults w) (console w).

Definition setConsole (c : list ProductionData.t) (w : World) : World :=
  mkWorld (settingsDb w) (queueDb w) (clock w) (faults w) c.

(** Every persistence call takes the next outcome. *)
Definition dbCall : M World unit := λ w,
  match faults w with
  | Some msg :: rest => (Throw (mkError msg), setFaults rest w)
  | None :: rest => (Ok tt, setFaults rest w)
  | [] => (Ok tt, w)
  end.

(** [new Date()] and [Date.now]; the reading does not change within one
    handler run. *)
Definition newDate : M World Z := λ w, (Ok (clock w), w).

(** [GlobalSettings.findOne({ shopDomain: shop })] *)
Definition GlobalSettings_findOne (shop : string)
  : M World (option GlobalSettings.t) :=
  dbCall ;;; λ w, (Ok (settingsDb w !! shop), w).

(** [GlobalSettings.create(doc)] *)
Definition GlobalSettings_create (doc : GlobalSettings.t)
  : M World GlobalSettings.t :=
  dbCall ;;;
  λ w, (Ok doc,
        setSettingsDb (<[GlobalSettings.shopDomain doc := doc]> (settingsDb w)) w).

(** [OrderQueue.create({ ..., status: 'pending' })]: [createdAt] takes the
    schema default, [processedAt] and [error] are unset. *)
Definition OrderQueue_create (shop orderId orderNumber : string)
    (orderData : OrderData.t) (items : list CustomizedItem.t)
  : M World QueueEntry.t :=
  dbCall ;;;
  λ w,
    let doc :=
      {| QueueEntry._id := length (queueDb w);
         QueueEntry.shopDomain := shop;
         QueueEntry.orderId := orderId;
         QueueEntry.orderNumber := orderNumber;
         QueueEntry.orderData := orderData;
         QueueEntry.items := items;
         QueueEntry.status := Status.pending;
         QueueEntry.processedAt := None;
         QueueEntry.error := None;
         QueueEntry.createdAt := clock w |} in
    (Ok doc, setQueueDb (queueDb w ++ [doc]) w).

(** [queueEntry.save()]: the stored document with this [_id] is replaced. *)
Definition QueueEntry_save (doc : QueueEntry.t) : M World unit :=
  dbCall ;;;
  λ w, (Ok tt, setQueueDb (<[QueueEntry._id doc := doc]> (queueDb w)) w).

(** [console.log('... Production data generated:', JSON.stringify(productionData))] *)
Definition consoleLog (productionData : ProductionData.t) : M World unit :=
  λ w, (Ok tt, setConsole (console w ++ [productionData]) w).

(** The local frame of [generateProductionFile]: the world and the
    in-memory [queueEntry] document that the function assigns to. *)
Record Frame := mkFrame { world : World; document : QueueEntry.t }.

Definition inWorld {A} (m : M World A) : M Frame A := λ fr,
  let '(r, w) := m (world fr) in (r, mkFrame w (document fr)).

Definition getEntry : M Frame QueueEntry.t := λ fr, (Ok (document fr), fr).

Definition setEntry (q : QueueEntry.t) : M Frame unit :=
  λ fr, (Ok tt, mkFrame (world fr) q).

Definition withStatus (st : Status.t) (q : QueueEntry.t) : QueueEntry.t :=
  QueueEntry.mk (QueueEntry._id q) (QueueEntry.shopDomain q)
    (QueueEntry.orderId q) (QueueEntry.orderNumber q) (QueueEntry.orderData q)
    (QueueEntry.items q) st (QueueEntry.processedAt q) (QueueEntry.error q)
    (QueueEntry.createdAt q).

Definition withProcessedAt (t : Z) (q : QueueEntry.t) : QueueEntry.t :=
  QueueEntry.mk (QueueEntry._id q) (QueueEntry.shopDomain q)
    (QueueEntry.orderId q) (QueueEntry.orderNumber q) (QueueEntry.orderData q)
    (QueueEntry.items q) (QueueEntry.status q) (Some t) (QueueEntry.error q)
    (QueueEntry.createdAt q).

Definition withError (msg : string) (q : QueueEntry.t) : QueueEntry.t :=
  QueueEntry.mk (QueueEntry._id q) (QueueEntry.shopDomain q)
    (QueueEntry.orderId q) (QueueEntry.orderNumber q) (QueueEntry.orderData q)
    (QueueEntry.items q) (QueueEntry.status q) (QueueEntry.processedAt q)
    (Some msg) (QueueEntry.createdAt q).

(** [queueEntry.field = v] *)
Definition assign (f : QueueEntry.t → QueueEntry.t) : M Frame unit :=
  q <- getEntry ;; setEntry (f q).

Inductive Response :=
  | SendText (code : Z) (body : string)
  | SendSettings (settings : GlobalSettings.t)
  | SendError (code : Z) (msg : string).

(** ** The specification's reading of extraction and of the default catalog *)

Definition triggerKeys : list string :=
  ["Custom Text"; "Player Name"; "Jersey Number"; "Custom Message"].

(** Last write wins: the value of the last declared property named [k]. *)
Definition lastValue (properties : list Property.t) (k : string)
  : option string :=
  Property.value <$> last (filter (λ p, Property.name p = k) properties).

(** The candidate an item gives rise to, if any: it qualifies when some
    trigger key has a non-empty last value, and then carries the item's
    identifiers and the whole property map. *)
Definition candidateOf (item : LineItem.t) : option CustomizedItem.t :=
  match LineItem.properties item with
  | Some properties =>
      if existsb (λ k, truthy (lastValue properties k)) triggerKeys
      then Some (toCustomizedItem item (buildProps properties))
      else None
  | None => None
  end.

(** The default catalog as the specification lists it:
    text options [(id, name, maxLength, basePrice)],
    placements [(id, name, code, price, (x, y, w, h, rot))],
    fonts [(id, name, code, price, displayLabel)]. *)
Definition documentedTextOptions : list (Z * string * Z * Z) :=
  [ (1, "Player Name", 15, 0); (2, "Custom Text", 25, 0);
    (3, "Jersey Number", 3, 0) ].

Definition documentedPlacements
  : list (Z * string * string * Z * (Z * Z * Z * Z * option Z)) :=
  [ (1, "Chest", "chest", 5, (360, 250, 200, 60, None));
    (2, "Back", "back", 5, (360, 300, 280, 100, None));
    (3, "Left Sleeve", "left_sleeve", 7, (150, 320, 80, 40, Some (-90)));
    (4, "Right Sleeve", "right_sleeve", 7, (150, 320, 80, 40, Some (-90))) ].

Definition documentedFonts : list (Z * string * string * Z * string) :=
  [ (1, "Standard", "standard", 0, "Standard Font (Free)");
    (2, "Varsity", "varsity", 3, "Varsity Style (+$3)");
    (3, "Script", "script", 5, "Script Style (+$5)");
    (4, "Modern", "modern", 3, "Modern Style (+$3)") ].

Definition textOptionRow (o : TextOption.t) : Z * string * Z * Z :=
  (TextOption.id o, TextOption.name o, TextOption.maxLength o,
   TextOption.basePrice o).

Definition geometryRow (c : Coordinates.t) : Z * Z * Z * Z * option Z :=
  (Coordinates.x c, Coordinates.y c, Coordinates.maxWidth c,
   Coordinates.maxHeight c, Coordinates.rotation c).

Definition placementRow (p : Placement.t)
  : Z * string * string * Z * (Z * Z * Z * Z * option Z) :=
  (Placement.id p, Placement.name p, Placement.code p, Placement.price p,
   geometryRow (Placement.coordinates p)).

Definition fontRow (f : Font.t) : Z * string * string * Z * string :=
  (Font.id f, Font.name f, Font.code f, Font.price f, Font.displayName f).

(** ** Replacing the settings ([PUT /api/settings/:shop]) *)

(** The request body: any of the three lists of the settings schema. *)
Module SettingsBody.
Record t := mk
  { textOptions : option (list TextOption.t);
    placements : option (list Placement.t);
    fonts : option (list Font.t) }.
End SettingsBody.

(** [GlobalSettings.findOneAndUpdate({ shopDomain: shop },
      { ...body, updatedAt }, { new: true, upsert: true })]:
    the fields of the update are set on the shop's document, which is
    created when there is none; a list that was never set reads as the
    empty array. The updated document is returned. *)
Definition GlobalSettings_findOneAndUpdate (shop : string)
    (body : SettingsBody.t) (updatedAt : Z) : M World GlobalSettings.t :=
  dbCall ;;;
  λ w,
    let old := settingsDb w !! shop in
    let doc :=
      {| GlobalSettings.shopDomain :=
           from_option GlobalSettings.shopDomain shop old;
         GlobalSettings.textOptions :=
           default (from_option GlobalSettings.textOptions [] old)
             (SettingsBody.textOptions body);
         GlobalSettings.placements :=
           default (from_option GlobalSettings.placements [] old)
             (SettingsBody.placements body);
         GlobalSettings.fonts :=
           default (from_option GlobalSettings.fonts [] old)
             (SettingsBody.fonts body);
         GlobalSettings.updatedAt := updatedAt |} in
    (Ok doc, setSettingsDb (<[shop := doc]> (settingsDb w)) w).

(** [PUT /api/settings/:shop] *)
Definition putSettings (shop : string) (body : SettingsBody.t)
  : M World Response :=
  tryCatch
    (now <- newDate ;;
     settings <- GlobalSettings_findOneAndUpdate shop body now ;;
     ret (SendSettings settings))
    (λ error, ret (SendError 500 (message error))).

(** ** Notions used to state further properties *)

(** What the fields of a queue entry say together: a pending entry has
    neither processing time nor message, a completed one has a processing
    time and no message, an entry in error has a message. *)
Definition coherent (q : QueueEntry.t) : Prop :=
  match QueueEntry.status q with
  | Status.pending =>
      QueueEntry.processedAt q = None ∧ QueueEntry.error q = None
  | Status.completed =>
      is_Some (QueueEntry.processedAt q) ∧ QueueEntry.error q = None
  | Status.error => is_Some (QueueEntry.error q)
  | Status.processing => False
  end.

(** [pieces.join(sep)] for a one-character separator. *)
Fixpoint join (sep : ascii) (pieces : list string) : string :=
  match pieces with
  | [] => EmptyString
  | [piece] => piece
  | piece :: rest => piece +:+ String sep (join sep rest)
  end.

Fixpoint occurrences (c : ascii) (s : string) : nat :=
  match s with
  | EmptyString => 0
  | String a r => (if Ascii.eqb a c then 1 else 0) + occurrences c r
  end.

Fixpoint contains (c : ascii) (s : string) : bool :=
  match s with
  | EmptyString => false
  | String a r => Ascii.eqb a c || contains c r
  end.

(** ** Sample data *)

Definition sampleShop : string := "demo.myshopify.com".

Definition sampleItem : LineItem.t :=
  LineItem.mk 11 22 33 "JERSEY-M" "Sports Jersey" 1
    (Some [ Property.mk "Player Name" "Smith";
            Property.mk "Placement" "Chest, Collar, Back";
            Property.mk "Font Style" "Varsity Style (+$3)";
            Property.mk "Player Name" "Jones" ]).

Definition plainItem : LineItem.t :=
  LineItem.mk 12 23 34 "TEE-S" "Classic T-Shirt" 2
    (Some [ Property.mk "Gift Wrap" "yes" ]).

Definition sampleOrder : Order.t :=
  Order.mk 1001 "#1001" "ann@example.com"
    (Some (Customer.mk (Some "Ann") (Some "Lee"))) "2024-05-01T10:00:00Z"
    [plainItem; sampleItem].

Definition sampleEntry : QueueEntry.t :=
  {| QueueEntry._id := 0;
     QueueEntry.shopDomain := sampleShop;
     QueueEntry.orderId := "1001";
     QueueEntry.orderNumber := "#1001";
     QueueEntry.orderData :=
       OrderData.mk (QueueCustomer.mk "ann@example.com" "Ann Lee")
         "2024-05-01T10:00:00Z";
     QueueEntry.items :=
       [ CustomizedItem.mk 11 22 33 "JERSEY-M" "Sports Jersey" 1
           {[ "Player Name" := "Jones";
              "Placement" := "Chest, Collar, Back";
              "Font Style" := "Varsity Style (+$3)" ]} ];
     QueueEntry.status := Status.pending;
     QueueEntry.processedAt := None;
     QueueEntry.error := None;
     QueueEntry.createdAt := 0 |}.

(** A world holding the shop's default catalog and the sample entry. *)
Definition sampleWorld (now : Z) (outcomes : list (option string)) : World :=
  mkWorld {[ sampleShop := defaultSettings sampleShop 0 ]} [sampleEntry]
    now outcomes [].

(** A world with empty collections. *)
Definition freshWorld (now : Z) (outcomes : list (option string)) : World :=
  mkWorld ∅ [] now outcomes [].

(** Further sample data. *)

Definition protoItem : LineItem.t :=
  LineItem.mk 21 22 23 "JERSEY-L" "Sports Jersey" 1
    (Some [ Property.mk "__proto__" "x";
            Property.mk "Player Name" "SMITH" ]).

Definition protoOrder : Order.t :=
  Order.mk 1004 "#1004" "eve@example.com" None "2024-05-04T09:00:00Z"
    [protoItem].

Definition plainOrder : Order.t :=
  Order.mk 1002 "#1002" "bob@example.com" None "2024-05-02T09:00:00Z"
    [plainItem].

Definition jerseyOrder : Order.t :=
  Order.mk 1003 "#1003" "ann@example.com"
    (Some (Customer.mk (Some "Ann") (Some "Lee"))) "2024-05-03T09:00:00Z"
    [sampleItem].

Definition sampleCandidate : CustomizedItem.t :=
  toCustomizedItem sampleItem
    (buildProps
       [ Property.mk "Player Name" "Smith";
         Property.mk "Placement" "Chest, Collar, Back";
         Property.mk "Font Style" "Varsity Style (+$3)";
         Property.mk "Player Name" "Jones" ]).

(** The entry the webhook queues for [sampleOrder] at clock reading 7, and
    the world right after its creation. *)
Definition queuedEntry : QueueEntry.t :=
  QueueEntry.mk 0 sampleShop "1001" "#1001"
    (OrderData.mk (QueueCustomer.mk "ann@example.com" "Ann Lee")
       "2024-05-01T10:00:00Z")
    (extractCustomizedItems sampleOrder) Status.pending None None 7.

Definition queuedWorld (outcomes : list (option string)) : World :=
  mkWorld ∅ [queuedEntry] 7 outcomes [].

Definition smithProps : gmap string string :=
  {[ "Player Name" := "SMITH"; "Placement" := "Chest, Back" ]}.

Definition collarProps : gmap string string :=
  {[ "Player Name" := "Jones"; "Placement" := "Collar" ]}.

Definition backProps : gmap string string :=
  {[ "Player Name" := "Jones"; "Placement" := "Back" ]}.

Definition collarPlacement : Placement.t :=
  Placement.mk 9 "Collar" "collar" 4 (Coordinates.mk 10 20 30 40 None).

Definition collarBody : SettingsBody.t :=
  SettingsBody.mk None (Some [collarPlacement]) None.

Definition bareSettings : GlobalSettings.t :=
  GlobalSettings.mk sampleShop [] [] [] 0.

(** ** Production compilation and the two handlers *)

Section Host.

(** [String.prototype.toUpperCase] *)
Variable toUpperCase : string → string.

(** [Number.prototype.toString], on the integer that [order.id] is. *)
Variable numberToString : Z → string.

Definition mkCustomization (customText : string) (font : option Font.t)
    (placement : Placement.t) : Customization.t :=
  {| Customization.type := "text";
     Customization.value := toUpperCase customText;
     Customization.placement := Placement.code placement;
     Customization.font := fontCodeOf font;
     Customization.color := "white";
     Customization.coordinates := Placement.coordinates placement |}.

(** One turn of [placements.forEach(placementName => { ... })]. *)
Definition pushCustomization (settings : option GlobalSettings.t)
    (customText : string) (font : option Font.t)
    (customizations : list Customization.t) (placementName : string)
  : list Customization.t :=
  match findPlacement settings placementName with
  | Some placement =>
      customizations ++ [mkCustomization customText font placement]
  | None => customizations
  end.

Definition forEachPlacement (settings : option GlobalSettings.t)
    (customText : string) (font : option Font.t) (placements : list string)
  : list Customization.t :=
  fold_left (pushCustomization settings customText font) placements [].

(** The [customizations] array computed for one item's [props]. *)
Definition itemCustomizations (settings : option GlobalSettings.t)
    (props : gmap string string) : list Customization.t :=
  let placements := placementNames props in
  let customText := customTextOf props in
  if negb (String.eqb customText "") && (0 <? length placements)%nat then
    let fontDisplay := fontDisplayOf props in
    let font := findFont settings fontDisplay in
    forEachPlacement settings customText font placements
  else [].

Definition toProductionLineItem (item : CustomizedItem.t)
    (customizations : list Customization.t) : ProductionLineItem.t :=
  {| ProductionLineItem.id := CustomizedItem.lineItemId item;
     ProductionLineItem.product_id := CustomizedItem.productId item;
     ProductionLineItem.variant_id := CustomizedItem.variantId item;
     ProductionLineItem.sku := CustomizedItem.sku item;
     ProductionLineItem.title := CustomizedItem.title item;
     ProductionLineItem.quantity := CustomizedItem.quantity item;
     ProductionLineItem.customizations := customizations |}.

(** One turn of [for (const item of queueEntry.customizations.items)]. *)
Definition compileStep (settings : option GlobalSettings.t)
    (line_items : list ProductionLineItem.t) (item : CustomizedItem.t)
  : list ProductionLineItem.t :=
  let customizations :=
    itemCustomizations settings (CustomizedItem.properties item) in
  if (0 <? length customizations)%nat
  then line_items ++ [toProductionLineItem item customizations]
  else line_items.

(** [productionData] once the loop has run; [now] is the [new Date()]
    read when the object literal is built. *)
Definition productionDataOf (queueEntry : QueueEntry.t)
    (settings : option GlobalSettings.t) (now : Z) : ProductionData.t :=
  {| ProductionData.order_id := QueueEntry.orderId queueEntry;
     ProductionData.order_number := QueueEntry.orderNumber queueEntry;
     ProductionData.created_at := now;
     ProductionData.customer :=
       OrderData.customer (QueueEntry.orderData queueEntry);
     ProductionData.line_items :=
       fold_left (compileStep settings) (QueueEntry.items queueEntry) [] |}.

(** The [try] block of [generateProductionFile]. *)
Definition generateTry : M Frame unit :=
  q <- getEntry ;;
  settings <- inWorld (GlobalSettings_findOne (QueueEntry.shopDomain q)) ;;
  now <- inWorld newDate ;;
  let productionData := productionDataOf q settings now in
  assign (withStatus Status.completed) ;;;
  processed <- inWorld newDate ;;
  assign (withProcessedAt processed) ;;;
  saved <- getEntry ;;
  inWorld (QueueEntry_save saved) ;;;
  inWorld (consoleLog productionData).

(** Its [catch (error)] block. *)
Definition generateCatch (error : Error) : M Frame unit :=
  assign (withStatus Status.error) ;;;
  assign (withError (message error)) ;;;
  saved <- getEntry ;;
  inWorld (QueueEntry_save saved).

(** [generateProductionFile(queueEntry)]; the result is the document as
    the function leaves it in memory. *)
Definition generateProductionFile (queueEntry : QueueEntry.t)
  : M World QueueEntry.t := λ w,
  let '(r, fr) := tryCatch generateTry generateCatch (mkFrame w queueEntry) in
  (match r with
   | Ok _ => Ok (document fr)
   | Throw e => Throw e
   end, world fr).

(** [`${order.customer?.first_name || ''} ${order.customer?.last_name || ''}`.trim()] *)
Definition customerName (customer : option Customer.t) : string :=
  trim (orElse (customer ≫= Customer.first_name) id ""
        +:+ " " +:+ orElse (customer ≫= Customer.last_name) id "").

(** [POST /webhooks/orders/create] from the parsed [order] on (the
    statements after [// Parse order], with the handler's [catch]); the
    verification of the signature before them is not part of it. *)
Definition webhookOrdersCreate (shop : string) (order : Order.t)
  : M World Response :=
  tryCatch
    (let customizedItems := extractCustomizedItems order in
     if (0 <? length customizedItems)%nat then
       queueEntry <-
         OrderQueue_create shop (numberToString (Order.id order))
           (Order.name order)
           {| OrderData.customer :=
                {| QueueCustomer.email := Order.email order;
                   QueueCustomer.name := customerName (Order.customer order) |};
              OrderData.createdAt := Order.created_at order |}
           customizedItems ;;
       generateProductionFile queueEntry ;;;
       ret (SendText 200 "OK")
     else ret (SendText 200 "OK"))
    (λ error, ret (SendError 500 (message error))).

(** [GET /api/settings/:shop] *)
Definition getSettings (shop : string) : M World Response :=
  tryCatch
    (found <- GlobalSettings_findOne shop ;;
     settings <-
       match found with
       | Some settings => ret settings
       | None =>
           now <- newDate ;;
           GlobalSettings_create (defaultSettings shop now)
       end ;;
     ret (SendSettings settings))
    (λ error, ret (SendError 500 (message error))).

(** Worlds the server can be in: the order queue starts empty and is only
    written by the webhook handler; the settings collection
    ([PUT /api/settings/:shop]), the clock and the outcomes of the coming
    persistence calls may change in any way between requests. *)
Inductive reachable : World → Prop :=
  | reach_start w : queueDb w = [] → reachable w
  | reach_webhook w shop order :
      reachable w → reachable (snd (webhookOrdersCreate shop order w))
  | reach_getSettings w shop :
      reachable w → reachable (snd (getSettings shop w))
  | reach_env w w' :
      reachable w → queueDb w' = queueDb w → reachable w'.

(** What a run does when every persistence call succeeds. *)
Definition completedEntry (q : QueueEntry.t) (w : World) : QueueEntry.t :=
  withProcessedAt (clock w) (withStatus Status.completed q).

Definition completedWorld (q : QueueEntry.t) (w : World) : World :=
  setConsole
    (console w
       ++ [productionDataOf q (settingsDb w !! QueueEntry.shopDomain q)
             (clock w)])
    (setQueueDb (<[QueueEntry._id q := completedEntry q w]> (queueDb w)) w).

(** The next persistence call does not reject. *)
Definition nextCallSucceeds (w : World) : Prop :=
  match faults w with
  | Some _ :: _ => False
  | _ => True
  end.

(** The statuses the handlers assign. *)
Definition settled (st : Status.t) : Prop :=
  st = Status.pending ∨ st = Status.completed ∨ st = Status.error.

Definition queueSettled (w : World) : Prop :=
  Forall (λ q, settled (QueueEntry.status q)) (queueDb w).

(** ** Host string operations: the fuel of [trim] suffices *)

Lemma dropPrefix_length (p s r : string) :
  dropPrefix p s = Some r →
  (String.length p + String.length r = String.length s)%nat.
Proof.
  revert s. induction p as [|a p IH]; intros s Hdrop; simpl in *.
  - by simplify_eq.
  - destruct s as [|b s]; [done|].
    destruct (Ascii.eqb a b); [|done].
    apply IH in Hdrop. simpl. lia.
Qed.

Lemma dropOneOf_shorter (ws : list string) (s r : string) :
  Forall (λ w, w ≠ EmptyString) ws →
  dropOneOf ws s = Some r →
  (String.length r < String.length s)%nat.
Proof.
  induction 1 as [|w ws Hw _ IH]; simpl; [done|].
  destruct (dropPrefix w s) as [r'|] eqn:Hdrop; [|done].
  intros [= ->]. apply dropPrefix_length in Hdrop.
  destruct w; [done|]. simpl in Hdrop. lia.
Qed.

Lemma trimStartN_done (fuel : nat) (ws : list string) (s : string) :
  Forall (λ w, w ≠ EmptyString) ws →
  (String.length s ≤ fuel)%nat →
  dropOneOf ws (trimStartN fuel ws s) = None.
Proof.
  intros Hws. revert s. induction fuel as [|fuel IH]; intros s Hlen; simpl.
  - destruct (dropOneOf ws s) as [r|] eqn:Hdrop; [|done].
    apply dropOneOf_shorter in Hdrop; [lia|done].
  - destruct (dropOneOf ws s) as [r|] eqn:Hdrop; [|done].
    apply IH. apply dropOneOf_shorter in Hdrop; [lia|done].
Qed.

(** No white space is left at the start of a string cut by [trimStart]. *)
Lemma trimStart_done (s : string) :
  dropOneOf whiteSpace (trimStart s) = None.
Proof.
  apply trimStartN_done; [|done].
  unfold whiteSpace. by repeat constructor.
Qed.

(** ** Extraction *)

Lemma buildProps_snoc (properties : list Property.t) (p : Property.t) :
  buildProps (properties ++ [p])
  = if decide (Property.name p = "__proto__") then buildProps properties
    else <[Property.name p := Property.value p]> (buildProps properties).
Proof. unfold buildProps. by rewrite fold_left_app. Qed.

Lemma lastValue_snoc (properties : list Property.t) (p : Property.t) k :
  lastValue (properties ++ [p]) k
  = if decide (Property.name p = k) then Some (Property.value p)
    else lastValue properties k.
Proof.
  unfold lastValue. rewrite filter_app.
  case_decide as Hk.
  - rewrite filter_cons_True, filter_nil by done. by rewrite last_snoc.
  - rewrite filter_cons_False, filter_nil by done. by rewrite app_nil_r.
Qed.

Lemma buildProps_lookup (properties : list Property.t) (k : string) :
  k ≠ "__proto__" →
  buildProps properties !! k = lastValue properties k.
Proof.
  intros Hk.
  induction properties as [|p properties IH] using rev_ind; [done|].
  rewrite buildProps_snoc, lastValue_snoc.
  destruct (decide (Property.name p = "__proto__")) as [Hp|Hp].
  - rewrite decide_False by congruence. done.
  - rewrite lookup_insert. by case_decide.
Qed.

Lemma buildProps_proto (properties : list Property.t) :
  buildProps properties !! "__proto__" = None.
Proof.
  induction properties as [|p properties IH] using rev_ind; [done|].
  rewrite buildProps_snoc. case_decide as Hp; [done|].
  by rewrite lookup_insert_ne.
Qed.

Lemma triggerKeys_ordinary (k : string) : k ∈ triggerKeys → k ≠ "__proto__".
Proof.
  unfold triggerKeys. intros Hk ->.
  repeat (apply elem_of_cons in Hk as [Hk | Hk]; [discriminate|]).
  by apply elem_of_nil in Hk.
Qed.

Lemma hasCustomization_lastValue (properties : list Property.t) :
  hasCustomization (buildProps properties)
  = existsb (λ k, truthy (lastValue properties k)) triggerKeys.
Proof.
  unfold hasCustomization. rewrite !buildProps_lookup by discriminate. simpl.
  by rewrite orb_false_r, !orb_assoc.
Qed.

Lemma lastValue_nil_truthy (properties : list Property.t) k :
  length properties = 0%nat → truthy (lastValue properties k) = false.
Proof. by destruct properties. Qed.

Lemma extractStep_candidateOf acc (item : LineItem.t) :
  extractStep acc item = acc ++ option_list (candidateOf item).
Proof.
  unfold extractStep, candidateOf.
  destruct (LineItem.properties item) as [properties|];
    [|by rewrite app_nil_r].
  rewrite hasCustomization_lastValue.
  destruct (0 <? length properties)%nat eqn:Hlen.
  - by destruct (existsb _ _); simpl; rewrite ?app_nil_r.
  - apply Nat.ltb_ge in Hlen.
    assert (length properties = 0%nat) as Hz by lia.
    simpl. rewrite !lastValue_nil_truthy by done.
    simpl. by rewrite app_nil_r.
Qed.

Lemma fold_extractStep (items : list LineItem.t) acc :
  fold_left extractStep items acc = acc ++ omap candidateOf items.
Proof.
  revert acc. induction items as [|item items IH]; intros acc; simpl.
  - by rewrite app_nil_r.
  - rewrite IH, extractStep_candidateOf, <- app_assoc. f_equal.
    by destruct (candidateOf item).
Qed.

Lemma truthy_spec (v : option string) :
  truthy v = true ↔ ∃ s, v = Some s ∧ s ≠ "".
Proof.
  destruct v as [s|]; simpl.
  - destruct (String.eqb_spec s ""); simpl; split.
    + done.
    + intros (s' & [= <-] & Hne). done.
    + eauto.
    + done.
  - split; [done|]. by intros (s & ? & _).
Qed.

(** C5, as the code has it. The property map of an item gives each name
    other than [__proto__] the value of its last declaration, and records
    nothing under [__proto__]; an item becomes a candidate exactly when that
    map has a non-empty value under one of the four trigger keys; the
    candidates come in line-item order, one per qualifying item, each with
    the item's id, product id, variant id, sku, title and quantity and that
    property map. *)
Lemma extraction_candidates (order : Order.t) :
  (∀ properties k, k ≠ "__proto__" →
     buildProps properties !! k = lastValue properties k)
  ∧ (∀ properties, buildProps properties !! "__proto__" = None)
  ∧ extractCustomizedItems order = omap candidateOf (Order.line_items order)
  ∧ (∀ item, is_Some (candidateOf item) ↔
       ∃ properties k v,
         LineItem.properties item = Some properties ∧ k ∈ triggerKeys
         ∧ buildProps properties !! k = Some v ∧ v ≠ "")
  ∧ (∀ item c, candidateOf item = Some c →
       CustomizedItem.lineItemId c = LineItem.id item
       ∧ CustomizedItem.productId c = LineItem.product_id item
       ∧ CustomizedItem.variantId c = LineItem.variant_id item
       ∧ CustomizedItem.sku c = LineItem.sku item
       ∧ CustomizedItem.title c = LineItem.title item
       ∧ CustomizedItem.quantity c = LineItem.quantity item
       ∧ ∃ properties, LineItem.properties item = Some properties
           ∧ CustomizedItem.properties c = buildProps properties).
Proof.
  split; [apply buildProps_lookup|].
  split; [apply buildProps_proto|].
  split; [unfold extractCustomizedItems; by rewrite fold_extractStep|].
  split.
  - intros item. unfold candidateOf.
    destruct (LineItem.properties item) as [properties|]; cycle 1.
    { split; [by intros []|]. by intros (? & ? & ? & ? & _). }
    destruct (existsb _ triggerKeys) eqn:Hex.
    + split; [intros _|eauto].
      apply existsb_exists in Hex as (k & Hk & Ht).
      apply truthy_spec in Ht as (v & Hv & Hne).
      apply list_elem_of_In in Hk.
      exists properties, k, v.
      by rewrite buildProps_lookup by by apply triggerKeys_ordinary.
    + split; [by intros []|].
      intros (ps & k & v & [= <-] & Hk & Hv & Hne). exfalso.
      rewrite buildProps_lookup in Hv by by apply triggerKeys_ordinary.
      assert (existsb (λ k, truthy (lastValue properties k)) triggerKeys
              = true) as Habs; [|congruence].
      apply existsb_exists. exists k. split; [by apply list_elem_of_In|].
      apply truthy_spec. eauto.
  - intros item c. unfold candidateOf.
    destruct (LineItem.properties item) as [properties|]; [|done].
    destruct (existsb _ _); [|done]. intros [= <-]. simpl. eauto 10.
Qed.

(** C5 at a property named [__proto__]: the item is a candidate, but its
    property map holds the player name only; the value declared under
    [__proto__], which the last-write-wins reading keeps, is not in it. *)
Theorem extraction_drops_proto :
  extractCustomizedItems protoOrder
  = [ CustomizedItem.mk 21 22 23 "JERSEY-L" "Sports Jersey" 1
        {[ "Player Name" := "SMITH" ]} ]
  ∧ lastValue
      [Property.mk "__proto__" "x"; Property.mk "Player Name" "SMITH"]
      "__proto__" = Some "x"
  ∧ buildProps
      [Property.mk "__proto__" "x"; Property.mk "Player Name" "SMITH"]
    !! "__proto__" = None.
Proof. split_and!; reflexivity. Qed.

(** ** Interpretation *)

Lemma orElse_falsy {A} (v : option string) (k : string → A) (rest : A) :
  v = None ∨ v = Some "" → orElse v k rest = rest.
Proof. by intros [-> | ->]. Qed.

Lemma orElse_truthy {A} (s : string) (k : string → A) (rest : A) :
  s ≠ "" → orElse (Some s) k rest = k s.
Proof. intros Hs. simpl. by destruct (String.eqb_spec s ""). Qed.

Lemma find_first {A} (f : A → bool) (l1 l2 : list A) (a : A) :
  f a = true → (∀ b, b ∈ l1 → f b = false) →
  List.find f (l1 ++ a :: l2) = Some a.
Proof.
  intros Ha Hl1. induction l1 as [|b l1 IH]; simpl.
  - by rewrite Ha.
  - rewrite (Hl1 b) by apply list_elem_of_here.
    apply IH. intros b' Hb'. apply Hl1. by apply list_elem_of_further.
Qed.

Lemma find_no_match {A} (f : A → bool) (l : list A) :
  (∀ b, b ∈ l → f b = false) → List.find f l = None.
Proof.
  intros Hl. induction l as [|b l IH]; simpl; [done|].
  rewrite (Hl b) by apply list_elem_of_here.
  apply IH. intros b' Hb'. apply Hl. by apply list_elem_of_further.
Qed.

Lemma findPlacement_unmatched settings (n : string) :
  (∀ s p, settings = Some s → p ∈ GlobalSettings.placements s →
          Placement.name p ≠ n) →
  findPlacement settings n = None.
Proof.
  intros Hn. destruct settings as [s|]; [|done]. simpl.
  apply find_no_match. intros p Hp. apply bool_decide_eq_false. eauto.
Qed.

(** The [forEach] loop emits, in request order, one instruction for each
    name that finds a placement. *)
Lemma fold_pushCustomization settings customText font
    (placements : list string) acc :
  fold_left (pushCustomization settings customText font) placements acc
  = acc ++ omap (λ n, mkCustomization customText font
                        <$> findPlacement settings n) placements.
Proof.
  revert acc. induction placements as [|n placements IH]; intros acc; simpl.
  - by rewrite app_nil_r.
  - rewrite IH. unfold pushCustomization.
    destruct (findPlacement settings n); simpl; [|done].
    by rewrite <- app_assoc.
Qed.

Lemma forEachPlacement_omap settings customText font placements :
  forEachPlacement settings customText font placements
  = omap (λ n, mkCustomization customText font
                 <$> findPlacement settings n) placements.
Proof. unfold forEachPlacement. by rewrite fold_pushCustomization. Qed.

Lemma forEachPlacement_app settings customText font l1 l2 :
  forEachPlacement settings customText font (l1 ++ l2)
  = forEachPlacement settings customText font l1
    ++ forEachPlacement settings customText font l2.
Proof. rewrite !forEachPlacement_omap. apply omap_app. Qed.

Lemma itemCustomizations_text settings props :
  customTextOf props ≠ "" →
  itemCustomizations settings props
  = forEachPlacement settings (customTextOf props)
      (findFont settings (fontDisplayOf props)) (placementNames props).
Proof.
  intros Htext. unfold itemCustomizations.
  destruct (String.eqb_spec (customTextOf props) ""); [done|]. simpl.
  by destruct (placementNames props).
Qed.

Lemma itemCustomizations_font settings props c :
  c ∈ itemCustomizations settings props →
  Customization.font c = fontCodeOf (findFont settings (fontDisplayOf props)).
Proof.
  unfold itemCustomizations.
  destruct (_ && _); [|by intros ?%elem_of_nil].
  rewrite forEachPlacement_omap. intros (n & _ & Hc)%list_elem_of_omap.
  destruct (findPlacement settings n); simplify_eq/=. done.
Qed.

Lemma forEachPlacement_no_settings customText font placements :
  forEachPlacement None customText font placements = [].
Proof.
  rewrite forEachPlacement_omap. by induction placements.
Qed.

Lemma itemCustomizations_no_settings props :
  itemCustomizations None props = [].
Proof.
  unfold itemCustomizations. destruct (_ && _); [|done].
  apply forEachPlacement_no_settings.
Qed.

(** The line items are, in order, the items with at least one instruction. *)
Lemma fold_compileStep settings (items : list CustomizedItem.t) acc :
  fold_left (compileStep settings) items acc
  = acc ++ omap (λ item,
             match itemCustomizations settings
                     (CustomizedItem.properties item) with
             | [] => None
             | c :: cs => Some (toProductionLineItem item (c :: cs))
             end) items.
Proof.
  revert acc. induction items as [|item items IH]; intros acc; simpl.
  - by rewrite app_nil_r.
  - rewrite IH. unfold compileStep.
    destruct (itemCustomizations settings _); simpl; [done|].
    by rewrite <- app_assoc.
Qed.

(** C1. With the property map {"Player Name": "SMITH",
    "Placement": "Chest, Back"} and the default catalog, interpretation
    yields exactly two text instructions, chest then back, both with value
    "SMITH", font "standard" and colour "white", carrying the geometry
    (360, 250, 200, 60) and (360, 300, 280, 100). The host's upper-casing
    leaves "SMITH" as it is. *)
Theorem interpret_smith_chest_back (shop : string) (now : Z) :
  toUpperCase "SMITH" = "SMITH" →
  itemCustomizations (Some (defaultSettings shop now))
    {[ "Player Name" := "SMITH"; "Placement" := "Chest, Back" ]}
  = [ Customization.mk "text" "SMITH" "chest" "standard" "white"
        (Coordinates.mk 360 250 200 60 None);
      Customization.mk "text" "SMITH" "back" "standard" "white"
        (Coordinates.mk 360 300 280 100 None) ].
Proof.
  intros Hup.
  rewrite itemCustomizations_text by (by vm_compute).
  rewrite forEachPlacement_omap.
  replace (customTextOf _) with "SMITH" by (by vm_compute).
  replace (placementNames _) with ["Chest"; "Back"] by (by vm_compute).
  simpl. unfold mkCustomization. rewrite Hup. reflexivity.
Qed.

(** C6. A property map without a "Placement" value (absent or empty)
    yields no instruction, whatever text it carries; so does a map in
    which none of the four text keys has a non-empty value. *)
Theorem interpret_without_placement_or_text settings
    (props : gmap string string) :
  (props !! "Placement" = None ∨ props !! "Placement" = Some "")
  ∨ (∀ k, k ∈ triggerKeys → props !! k = None ∨ props !! k = Some "") →
  itemCustomizations settings props = [].
Proof.
  intros [Hplacement | Htext]; unfold itemCustomizations.
  - unfold placementNames. rewrite orElse_falsy by done.
    simpl. by rewrite andb_false_r.
  - unfold customTextOf.
    rewrite !orElse_falsy; [done|apply Htext; unfold triggerKeys..].
    + do 3 apply list_elem_of_further. apply list_elem_of_here.
    + do 2 apply list_elem_of_further. apply list_elem_of_here.
    + apply list_elem_of_further, list_elem_of_here.
    + apply list_elem_of_here.
Qed.

(** C4. The font of every emitted instruction comes from the label
    [properties["Font Style"]], "Standard Font (Free)" when the key is
    absent: it is the first catalog font whose display label equals the
    label, the catalog's first font when no label is equal, and the
    instruction carries that font's code (or "standard" when the code is
    empty); with no font in the catalog the code is "standard". *)
Theorem font_resolution (s : GlobalSettings.t) (props : gmap string string)
    (c : Customization.t) :
  c ∈ itemCustomizations (Some s) props →
  ∃ label,
    (props !! "Font Style" = None → label = "Standard Font (Free)")
    ∧ (∀ v, props !! "Font Style" = Some v → v ≠ "" → label = v)
    ∧ (∀ l1 f l2,
         GlobalSettings.fonts s = l1 ++ f :: l2 →
         Font.displayName f = label →
         (∀ g, g ∈ l1 → Font.displayName g ≠ label) →
         Customization.font c
         = if decide (Font.code f = "") then "standard" else Font.code f)
    ∧ (∀ f rest,
         GlobalSettings.fonts s = f :: rest →
         (∀ g, g ∈ GlobalSettings.fonts s → Font.displayName g ≠ label) →
         Customization.font c
         = if decide (Font.code f = "") then "standard" else Font.code f)
    ∧ (GlobalSettings.fonts s = [] → Customization.font c = "standard").
Proof.
  intros Hc%itemCustomizations_font. exists (fontDisplayOf props).
  assert (∀ f : Font.t, fontCodeOf (Some f)
            = if decide (Font.code f = "") then "standard" else Font.code f)
    as Hcode.
  { intros f. unfold fontCodeOf. simpl.
    destruct (String.eqb_spec (Font.code f) ""); by case_decide. }
  repeat split.
  - intros Habs. unfold fontDisplayOf. by rewrite Habs.
  - intros v Hv Hne. unfold fontDisplayOf. rewrite Hv.
    by apply orElse_truthy.
  - intros l1 f l2 Hfonts Hf Hl1. rewrite Hc, <- Hcode. f_equal.
    unfold findFont. rewrite Hfonts, (find_first _ l1 l2 f); [done|..].
    + by apply bool_decide_eq_true.
    + intros g Hg. apply bool_decide_eq_false. by apply Hl1.
  - intros f rest Hfonts Hnone. rewrite Hc, <- Hcode. f_equal.
    unfold findFont. rewrite find_no_match.
    + by rewrite Hfonts.
    + intros g Hg. apply bool_decide_eq_false. by apply Hnone.
  - intros Hfonts. rewrite Hc. unfold findFont. by rewrite Hfonts.
Qed.

(** ** Compilation runs *)

Lemma generate_healthy (q : QueueEntry.t) (w : World) :
  faults w = [] →
  generateProductionFile q w = (Ok (completedEntry q w), completedWorld q w).
Proof.
  intros Hf.
  unfold generateProductionFile, tryCatch, generateTry, bind, inWorld,
    GlobalSettings_findOne, QueueEntry_save, bind, dbCall, getEntry, assign,
    bind, getEntry, setEntry, newDate, consoleLog.
  simpl. rewrite Hf. simpl. rewrite Hf. reflexivity.
Qed.

(** C3. A requested placement name that no catalog placement bears is passed
    over: the instructions are those of the names before it followed by
    those of the names after it, and every other name that finds a
    placement still has its instruction. Items left without instruction
    are absent from the line items, which are otherwise in order, and the
    run ends completed, not in error. *)
Theorem unmatched_placement_skipped settings (props : gmap string string)
    (l1 l2 : list string) (n : string) :
  customTextOf props ≠ "" →
  placementNames props = l1 ++ n :: l2 →
  (∀ s p, settings = Some s → p ∈ GlobalSettings.placements s →
          Placement.name p ≠ n) →
  itemCustomizations settings props
  = forEachPlacement settings (customTextOf props)
      (findFont settings (fontDisplayOf props)) l1
    ++ forEachPlacement settings (customTextOf props)
         (findFont settings (fontDisplayOf props)) l2
  ∧ (∀ m p, m ∈ l1 ++ l2 → findPlacement settings m = Some p →
       mkCustomization (customTextOf props)
         (findFont settings (fontDisplayOf props)) p
       ∈ itemCustomizations settings props)
  ∧ (∀ q now,
       ProductionData.line_items (productionDataOf q settings now)
       = omap (λ item,
            match itemCustomizations settings
                    (CustomizedItem.properties item) with
            | [] => None
            | c :: cs => Some (toProductionLineItem item (c :: cs))
            end) (QueueEntry.items q))
  ∧ (∀ q w, faults w = [] →
       ∃ q' w', generateProductionFile q w = (Ok q', w')
                ∧ QueueEntry.status q' = Status.completed
                ∧ QueueEntry.error q' = QueueEntry.error q).
Proof.
  intros Htext Hnames Hn.
  assert (itemCustomizations settings props
          = forEachPlacement settings (customTextOf props)
              (findFont settings (fontDisplayOf props)) l1
            ++ forEachPlacement settings (customTextOf props)
                 (findFont settings (fontDisplayOf props)) l2) as Heq.
  { rewrite itemCustomizations_text, Hnames by done.
    rewrite forEachPlacement_app. f_equal.
    unfold forEachPlacement at 1. simpl. unfold pushCustomization at 2.
    by rewrite findPlacement_unmatched. }
  split; [done|]. split; [|split].
  - intros m p Hm Hp. rewrite Heq, <- forEachPlacement_app.
    rewrite forEachPlacement_omap. apply list_elem_of_omap.
    exists m. split; [done|]. by rewrite Hp.
  - intros q now. simpl. by rewrite fold_compileStep.
  - intros q w Hf. eexists _, _. split; [by apply generate_healthy|done].
Qed.

(** C9. With no settings document for the shop when compilation runs,
    and persistence answering, no default catalog is created and nothing
    fails: every placement lookup misses, the record logged has no line
    item, and the queue entry is saved completed with its processing
    time. *)
Theorem compile_without_catalog (q : QueueEntry.t) (w : World) :
  settingsDb w !! QueueEntry.shopDomain q = None →
  faults w = [] →
  ∃ q' w' pd,
    generateProductionFile q w = (Ok q', w')
    ∧ settingsDb w' = settingsDb w
    ∧ console w' = console w ++ [pd]
    ∧ ProductionData.line_items pd = []
    ∧ QueueEntry.status q' = Status.completed
    ∧ QueueEntry.processedAt q' = Some (clock w)
    ∧ QueueEntry.error q' = QueueEntry.error q
    ∧ queueDb w' = <[QueueEntry._id q := q']> (queueDb w)
    ∧ ∀ placementName,
        findPlacement (settingsDb w !! QueueEntry.shopDomain q) placementName
        = None.
Proof.
  intros Hnone Hf. eexists _, _, _.
  split; [by apply generate_healthy|].
  split_and!; try done; [|by rewrite Hnone].
  simpl. rewrite Hnone, fold_compileStep. simpl.
  induction (QueueEntry.items q) as [|item items IH]; [done|].
  simpl. by rewrite itemCustomizations_no_settings.
Qed.

(** C2 (as the code has it). For one queue entry and one settings
    document, two compilations log records with the same order id, order
    number, customer and line items, equal altogether when the clock reads
    the same; [created_at] is the clock reading of the run. The settings
    collection is left as it was; the queue entry is not: it leaves
    completed, with its processing time. *)
Theorem compile_equal_up_to_clock (q : QueueEntry.t) (w1 w2 : World) :
  faults w1 = [] → faults w2 = [] →
  settingsDb w1 !! QueueEntry.shopDomain q
  = settingsDb w2 !! QueueEntry.shopDomain q →
  ∃ pd1 pd2 w1' w2',
    generateProductionFile q w1 = (Ok (completedEntry q w1), w1')
    ∧ generateProductionFile q w2 = (Ok (completedEntry q w2), w2')
    ∧ console w1' = console w1 ++ [pd1]
    ∧ console w2' = console w2 ++ [pd2]
    ∧ ProductionData.order_id pd1 = ProductionData.order_id pd2
    ∧ ProductionData.order_number pd1 = ProductionData.order_number pd2
    ∧ ProductionData.customer pd1 = ProductionData.customer pd2
    ∧ ProductionData.line_items pd1 = ProductionData.line_items pd2
    ∧ ProductionData.created_at pd1 = clock w1
    ∧ ProductionData.created_at pd2 = clock w2
    ∧ (clock w1 = clock w2 → pd1 = pd2)
    ∧ settingsDb w1' = settingsDb w1
    ∧ settingsDb w2' = settingsDb w2
    ∧ QueueEntry.status (completedEntry q w1) = Status.completed
    ∧ QueueEntry.processedAt (completedEntry q w1) = Some (clock w1).
Proof.
  intros Hf1 Hf2 Hs. eexists _, _, _, _.
  split; [by apply generate_healthy|].
  split; [by apply generate_healthy|].
  simpl. rewrite Hs. repeat split.
  intros Hclock. unfold productionDataOf. by rewrite Hclock.
Qed.

(** ** Failure capture *)

(** C7 (as the code has it). An exception raised in the [try] block of a
    compilation is caught there: the entry is put in error with the
    exception's message and saved. When that save succeeds nothing reaches
    the caller, and the webhook, having queued the entry, answers 200 OK.
    When that save rejects too, the entry in memory is in error with the
    first message, but the exception of the save leaves the function, the
    webhook answers 500 with its message, and the stored queue is as it
    was. *)
Theorem compile_failure_recorded (q : QueueEntry.t) (w : World)
    (e : Error) (fr : Frame) :
  generateTry (mkFrame w q) = (Throw e, fr) →
  (nextCallSucceeds (world fr) →
   ∃ q' w',
     generateProductionFile q w = (Ok q', w')
     ∧ QueueEntry.status q' = Status.error
     ∧ QueueEntry.error q' = Some (message e)
     ∧ queueDb w' = <[QueueEntry._id q := q']> (queueDb w)
     ∧ ∀ shop order w0,
         extractCustomizedItems order ≠ [] →
         OrderQueue_create shop (numberToString (Order.id order))
           (Order.name order)
           {| OrderData.customer :=
                {| QueueCustomer.email := Order.email order;
                   QueueCustomer.name := customerName (Order.customer order) |};
              OrderData.createdAt := Order.created_at order |}
           (extractCustomizedItems order) w0 = (Ok q, w) →
         webhookOrdersCreate shop order w0 = (Ok (SendText 200 "OK"), w'))
  ∧ (∀ msg rest,
       faults (world fr) = Some msg :: rest →
       ∃ q' w',
         tryCatch generateTry generateCatch (mkFrame w q)
         = (Throw (mkError msg), mkFrame w' q')
         ∧ QueueEntry.status q' = Status.error
         ∧ QueueEntry.error q' = Some (message e)
         ∧ generateProductionFile q w = (Throw (mkError msg), w')
         ∧ queueDb w' = queueDb w
         ∧ ∀ shop order w0,
             extractCustomizedItems order ≠ [] →
             OrderQueue_create shop (numberToString (Order.id order))
               (Order.name order)
               {| OrderData.customer :=
                    {| QueueCustomer.email := Order.email order;
                       QueueCustomer.name :=
                         customerName (Order.customer order) |};
                  OrderData.createdAt := Order.created_at order |}
               (extractCustomizedItems order) w0 = (Ok q, w) →
             webhookOrdersCreate shop order w0
             = (Ok (SendError 500 msg), w')).
Proof.
  intros Htry. split.
  - intros Hnext.
    assert (∃ q' w',
      generateProductionFile q w = (Ok q', w')
      ∧ QueueEntry.status q' = Status.error
      ∧ QueueEntry.error q' = Some (message e)
      ∧ queueDb w' = <[QueueEntry._id q := q']> (queueDb w))
      as (q' & w' & Hrun & Hrest).
    { unfold generateProductionFile, tryCatch. rewrite Htry.
      revert Htry Hnext.
      unfold generateTry, generateCatch, bind, inWorld,
        GlobalSettings_findOne, QueueEntry_save, bind, dbCall, getEntry,
        assign, bind, getEntry, setEntry, newDate, consoleLog,
        nextCallSucceeds.
      simpl. intros Htry Hnext.
      repeat case_match; simplify_eq/=; try done; by eexists _, _. }
    exists q', w'. split; [done|]. split_and!; try apply Hrest.
    intros shop order w0 Hitems Hcreate.
    unfold webhookOrdersCreate, tryCatch, bind.
    destruct (extractCustomizedItems order) as [|item items]; [done|].
    simpl. simpl in Hcreate. by rewrite Hcreate, Hrun.
  - intros msg rest Hfaults.
    assert (∃ q' w',
      tryCatch generateTry generateCatch (mkFrame w q)
      = (Throw (mkError msg), mkFrame w' q')
      ∧ QueueEntry.status q' = Status.error
      ∧ QueueEntry.error q' = Some (message e)
      ∧ queueDb w' = queueDb w) as (q' & w' & Hcatch & Hst & Herr & Hqueue).
    { unfold tryCatch. rewrite Htry.
      revert Htry Hfaults.
      unfold generateTry, generateCatch, bind, inWorld,
        GlobalSettings_findOne, QueueEntry_save, bind, dbCall, getEntry,
        assign, bind, getEntry, setEntry, newDate, consoleLog.
      simpl. intros Htry Hfaults.
      repeat case_match; simplify_eq/=; try done; by eexists _, _. }
    assert (generateProductionFile q w = (Throw (mkError msg), w')) as Hrun.
    { unfold generateProductionFile. by rewrite Hcatch. }
    exists q', w'. split_and!; try done.
    intros shop order w0 Hitems Hcreate.
    unfold webhookOrdersCreate, tryCatch, bind, ret.
    destruct (extractCustomizedItems order) as [|item items]; [done|].
    simpl. simpl in Hcreate. by rewrite Hcreate, Hrun.
Qed.

(** ** The settings handler *)

(** C8. For a shop without settings, and persistence answering, the
    settings handler creates, stores and returns the default document: its
    three text options, four placements and four fonts are the documented
    ones. A later request for the same shop returns the same document and
    leaves the world as it is. *)
Theorem default_catalog_created (shop : string) (w : World) :
  settingsDb w !! shop = None →
  faults w = [] →
  getSettings shop w
  = (Ok (SendSettings (defaultSettings shop (clock w))),
     setSettingsDb (<[shop := defaultSettings shop (clock w)]> (settingsDb w)) w)
  ∧ textOptionRow <$> GlobalSettings.textOptions (defaultSettings shop (clock w))
    = documentedTextOptions
  ∧ placementRow <$> GlobalSettings.placements (defaultSettings shop (clock w))
    = documentedPlacements
  ∧ fontRow <$> GlobalSettings.fonts (defaultSettings shop (clock w))
    = documentedFonts
  ∧ ∀ w2,
      settingsDb w2 = <[shop := defaultSettings shop (clock w)]> (settingsDb w) →
      faults w2 = [] →
      getSettings shop w2
      = (Ok (SendSettings (defaultSettings shop (clock w))), w2).
Proof.
  intros Hnone Hf. split_and!; try reflexivity.
  - unfold getSettings, tryCatch, bind, GlobalSettings_findOne, bind, dbCall.
    rewrite Hf, Hnone. simpl.
    unfold GlobalSettings_create, bind, dbCall, newDate.
    by rewrite Hf.
  - intros w2 Hdb Hf2.
    unfold getSettings, tryCatch, bind, GlobalSettings_findOne, bind, dbCall.
    by rewrite Hf2, Hdb, lookup_insert_eq.
Qed.

(** ** The status invariant *)

Lemma getSettings_queue (shop : string) (w : World) :
  queueDb (snd (getSettings shop w)) = queueDb w.
Proof.
  unfold getSettings, tryCatch, bind, GlobalSettings_findOne,
    GlobalSettings_create, bind, dbCall, newDate, ret.
  by repeat (case_match; simplify_eq/=).
Qed.

Lemma create_settled shop orderId orderNumber orderData items (w : World) :
  queueSettled w →
  match OrderQueue_create shop orderId orderNumber orderData items w with
  | (Ok q, w') => queueSettled w' ∧ QueueEntry.status q = Status.pending
  | (Throw _, w') => queueSettled w'
  end.
Proof.
  intros Hw. unfold OrderQueue_create, bind, dbCall, queueSettled in *.
  repeat (case_match; simplify_eq/=); try done.
  all: split; [|done]; apply Forall_app; split; [done|].
  all: apply Forall_singleton; unfold settled; by left.
Qed.

Lemma generate_settled (q : QueueEntry.t) (w : World) :
  queueSettled w → queueSettled (snd (generateProductionFile q w)).
Proof.
  intros Hw.
  unfold generateProductionFile, tryCatch, generateTry, generateCatch, bind,
    inWorld, GlobalSettings_findOne, QueueEntry_save, bind, dbCall, getEntry,
    assign, bind, getEntry, setEntry, newDate, consoleLog, queueSettled in *.
  simpl.
  repeat (case_match; simplify_eq/=); try done.
  all: apply Forall_insert; [done|]; unfold settled; simpl; auto.
Qed.

Lemma generate_result_status (q q' : QueueEntry.t) (w w' : World) :
  generateProductionFile q w = (Ok q', w') →
  QueueEntry.status q' = Status.completed ∨ QueueEntry.status q' = Status.error.
Proof.
  unfold generateProductionFile, tryCatch, generateTry, generateCatch, bind,
    inWorld, GlobalSettings_findOne, QueueEntry_save, bind, dbCall, getEntry,
    assign, bind, getEntry, setEntry, newDate, consoleLog.
  simpl. intros Hrun.
  repeat (case_match; simplify_eq/=); auto.
Qed.

Lemma webhook_settled (shop : string) (order : Order.t) (w : World) :
  queueSettled w → queueSettled (snd (webhookOrdersCreate shop order w)).
Proof.
  intros Hw. unfold webhookOrdersCreate, tryCatch, bind, ret.
  destruct (0 <? length (extractCustomizedItems order))%nat; [|done].
  match goal with
  | |- context [OrderQueue_create ?a ?b ?c ?d ?i w] =>
      pose proof (create_settled a b c d i w Hw) as Hc;
      destruct (OrderQueue_create a b c d i w) as [[q|e] w1]
  end; [|done].
  destruct Hc as [Hw1 _].
  pose proof (generate_settled q w1 Hw1) as Hg.
  by destruct (generateProductionFile q w1) as [[q'|e] w2].
Qed.

(** C10. In every world the server reaches, each queue entry is pending,
    completed or in error: nothing assigns the status "processing", and
    a compilation that returns leaves its entry completed or in error. *)
Theorem status_never_processing (w : World) :
  reachable w →
  (∀ q, q ∈ queueDb w →
        QueueEntry.status q = Status.pending
        ∨ QueueEntry.status q = Status.completed
        ∨ QueueEntry.status q = Status.error)
  ∧ (∀ q, q ∈ queueDb w → QueueEntry.status q ≠ Status.processing)
  ∧ (∀ q q' w', generateProductionFile q w = (Ok q', w') →
        QueueEntry.status q' = Status.completed
        ∨ QueueEntry.status q' = Status.error).
Proof.
  intros Hreach.
  assert (queueSettled w) as Hw.
  { induction Hreach as [w Hq|w shop order _ IH|w shop _ IH|w w' _ IH Hq].
    - unfold queueSettled. rewrite Hq. constructor.
    - by apply webhook_settled.
    - unfold queueSettled. by rewrite getSettings_queue.
    - unfold queueSettled. by rewrite Hq. }
  unfold queueSettled in Hw. rewrite Forall_forall in Hw.
  split_and!.
  - intros q Hq. by apply Hw.
  - intros q Hq Hp. destruct (Hw q Hq) as [H|[H|H]]; congruence.
  - intros q q' w'. apply generate_result_status.
Qed.

(** ** Further properties of the webhook and of compilation *)

Ltac unfold_run :=
  unfold generateProductionFile, tryCatch, generateTry, generateCatch, bind,
    inWorld, GlobalSettings_findOne, QueueEntry_save, bind, dbCall, getEntry,
    assign, bind, getEntry, setEntry, newDate, consoleLog; simpl.

Lemma truthy_falsy (v : option string) :
  v = None ∨ v = Some "" → truthy v = false.
Proof. by intros [-> | ->]. Qed.

Lemma candidateOf_none (item : LineItem.t) :
  (∀ properties k,
     LineItem.properties item = Some properties → k ∈ triggerKeys →
     buildProps properties !! k = None ∨ buildProps properties !! k = Some "") →
  candidateOf item = None.
Proof.
  intros Hnone. unfold candidateOf.
  destruct (LineItem.properties item) as [properties|]; [|done].
  rewrite <- hasCustomization_lastValue. unfold hasCustomization.
  rewrite !truthy_falsy; [done|apply Hnone; [done|unfold triggerKeys]..].
  - do 3 apply list_elem_of_further. apply list_elem_of_here.
  - do 2 apply list_elem_of_further. apply list_elem_of_here.
  - apply list_elem_of_further, list_elem_of_here.
  - apply list_elem_of_here.
Qed.

(** X1. An order in which no line item has a non-empty value under a trigger
    key is acknowledged with 200 OK and leaves the world as it was: nothing
    is queued, nothing is logged, no persistence call is made. *)
Theorem webhook_without_candidates (shop : string) (order : Order.t)
    (w : World) :
  (∀ item properties k,
     item ∈ Order.line_items order →
     LineItem.properties item = Some properties → k ∈ triggerKeys →
     buildProps properties !! k = None ∨ buildProps properties !! k = Some "") →
  webhookOrdersCreate shop order w = (Ok (SendText 200 "OK"), w).
Proof.
  intros Hnone.
  assert (extractCustomizedItems order = []) as Hex.
  { unfold extractCustomizedItems. rewrite fold_extractStep. simpl.
    induction (Order.line_items order) as [|item items IH]; [done|].
    simpl. rewrite candidateOf_none.
    - apply IH. intros item' ps k Hin. apply Hnone.
      by apply list_elem_of_further.
    - intros ps k. apply Hnone, list_elem_of_here. }
  unfold webhookOrdersCreate, tryCatch. by rewrite Hex.
Qed.

Lemma insert_last {A} (l : list A) (x y : A) :
  <[length l := x]> (l ++ [y]) = l ++ [x].
Proof.
  replace (length l) with (length l + 0)%nat by lia.
  by rewrite insert_app_r.
Qed.

Lemma create_healthy shop orderId orderNumber orderData items (w : World) :
  faults w = [] →
  OrderQueue_create shop orderId orderNumber orderData items w
  = (Ok (QueueEntry.mk (length (queueDb w)) shop orderId orderNumber
           orderData items Status.pending None None (clock w)),
     setQueueDb
       (queueDb w
          ++ [QueueEntry.mk (length (queueDb w)) shop orderId orderNumber
                orderData items Status.pending None None (clock w)]) w).
Proof. intros Hf. unfold OrderQueue_create, bind, dbCall. by rewrite Hf. Qed.

(** X2. With persistence answering, an order with at least one candidate adds
    exactly one entry at the end of the queue: numbered by its position,
    carrying the shop, [order.id.toString()], the order number and the
    extracted candidates, completed and stamped with the clock, without
    error message. One production record is logged for it, the settings
    collection is not written, and the answer is 200 OK. *)
Theorem webhook_queues_and_completes (shop : string) (order : Order.t)
    (w : World) :
  faults w = [] →
  extractCustomizedItems order ≠ [] →
  ∃ q w',
    webhookOrdersCreate shop order w = (Ok (SendText 200 "OK"), w')
    ∧ queueDb w' = queueDb w ++ [q]
    ∧ console w'
      = console w ++ [productionDataOf q (settingsDb w !! shop) (clock w)]
    ∧ settingsDb w' = settingsDb w
    ∧ QueueEntry._id q = length (queueDb w)
    ∧ QueueEntry.shopDomain q = shop
    ∧ QueueEntry.orderId q = numberToString (Order.id order)
    ∧ QueueEntry.orderNumber q = Order.name order
    ∧ QueueEntry.items q = extractCustomizedItems order
    ∧ QueueEntry.status q = Status.completed
    ∧ QueueEntry.processedAt q = Some (clock w)
    ∧ QueueEntry.error q = None.
Proof.
  intros Hf Hitems.
  unfold webhookOrdersCreate, tryCatch, bind.
  destruct (extractCustomizedItems order) as [|item items] eqn:Hex; [done|].
  simpl. rewrite create_healthy by done.
  rewrite generate_healthy by done.
  unfold ret, completedWorld, completedEntry. simpl.
  rewrite insert_last. eexists _, _. split; [reflexivity|]. by split_and!.
Qed.

(** X4. When the creation of the queue entry rejects, the answer is 500 with
    the rejection's message; nothing is queued and nothing is logged. *)
Theorem webhook_create_rejected (shop : string) (order : Order.t) (w : World)
    (msg : string) (rest : list (option string)) :
  faults w = Some msg :: rest →
  extractCustomizedItems order ≠ [] →
  webhookOrdersCreate shop order w
  = (Ok (SendError 500 msg), setFaults rest w).
Proof.
  intros Hf Hitems.
  unfold webhookOrdersCreate, tryCatch, bind at 1.
  destruct (extractCustomizedItems order) as [|item items] eqn:Hex; [done|].
  simpl. unfold OrderQueue_create, bind at 1. unfold dbCall. by rewrite Hf.
Qed.

(** What a compilation does to the queue: nothing, or one write at the
    entry's own number, of an entry that keeps that number and whose fields
    are coherent. *)
Lemma generate_queue_shape (q : QueueEntry.t) (w : World) :
  QueueEntry.error q = None →
  queueDb (snd (generateProductionFile q w)) = queueDb w
  ∨ ∃ q', queueDb (snd (generateProductionFile q w))
          = <[QueueEntry._id q := q']> (queueDb w)
          ∧ QueueEntry._id q' = QueueEntry._id q
          ∧ coherent q'.
Proof.
  intros Herr. unfold_run.
  repeat (case_match; simplify_eq/=);
    first [ by left
          | right; eexists; split; [reflexivity|];
            unfold coherent; simpl; rewrite ?Herr; by eauto ].
Qed.

Lemma create_shape shop orderId orderNumber orderData items (w : World) :
  match OrderQueue_create shop orderId orderNumber orderData items w with
  | (Ok q, w') =>
      queueDb w' = queueDb w ++ [q]
      ∧ QueueEntry._id q = length (queueDb w) ∧ coherent q
      ∧ QueueEntry.error q = None
  | (Throw _, w') => queueDb w' = queueDb w
  end.
Proof.
  unfold OrderQueue_create, bind, dbCall.
  by repeat (case_match; simplify_eq/=).
Qed.

(** The queue after a webhook run: the queue before, followed by nothing or
    by one coherent entry numbered by its position. *)
Lemma webhook_queue_shape (shop : string) (order : Order.t) (w : World) :
  queueDb (snd (webhookOrdersCreate shop order w)) = queueDb w
  ∨ ∃ q, queueDb (snd (webhookOrdersCreate shop order w)) = queueDb w ++ [q]
         ∧ QueueEntry._id q = length (queueDb w)
         ∧ coherent q.
Proof.
  unfold webhookOrdersCreate, tryCatch, bind, ret.
  destruct (0 <? length (extractCustomizedItems order))%nat; [|by left].
  match goal with
  | |- context [OrderQueue_create ?a ?b ?c ?d ?i w] =>
      pose proof (create_shape a b c d i w) as Hc;
      destruct (OrderQueue_create a b c d i w) as [[q|e] w1]
  end; [|by left].
  destruct Hc as (Hq & Hid & Hcoh & Herr). right.
  destruct (generate_queue_shape q w1 Herr) as [Hg|(q' & Hg & Hid' & Hcoh')].
  - exists q.
    destruct (generateProductionFile q w1) as [[q'|e] w2]; simpl in *;
      by rewrite Hg, Hq.
  - exists q'.
    destruct (generateProductionFile q w1) as [[q''|e] w2]; simpl in *;
      rewrite Hg, Hq, Hid, insert_last; by rewrite Hid', Hid.
Qed.

(** X5. A webhook run keeps every entry that was in the queue, unchanged and in
    place, and adds at most one. *)
Theorem webhook_keeps_earlier_entries (shop : string) (order : Order.t)
    (w : World) :
  ∃ added,
    queueDb (snd (webhookOrdersCreate shop order w)) = queueDb w ++ added
    ∧ (length added ≤ 1)%nat
    ∧ ∀ i q, queueDb w !! i = Some q →
             queueDb (snd (webhookOrdersCreate shop order w)) !! i = Some q.
Proof.
  destruct (webhook_queue_shape shop order w) as [Hq|(q & Hq & _)].
  - exists []. rewrite Hq, app_nil_r. split_and!; [done|simpl; lia|done].
  - exists [q]. rewrite Hq. split_and!; [done|simpl; lia|].
    intros i q0 Hi. by apply lookup_app_l_Some.
Qed.

Lemma reachable_queue_shape (w : World) :
  reachable w →
  ∀ i q, queueDb w !! i = Some q → QueueEntry._id q = i ∧ coherent q.
Proof.
  induction 1 as [w Hq|w shop order _ IH|w shop _ IH|w w' _ IH Hq].
  - rewrite Hq. intros i q Hi. by rewrite lookup_nil in Hi.
  - destruct (webhook_queue_shape shop order w) as [Hq|(q' & Hq & Hid & Hcoh)];
      rewrite Hq; [done|].
    intros i q [[_ Hi]|[-> <-]]%lookup_snoc_Some; [by apply IH|done].
  - by rewrite getSettings_queue.
  - by rewrite Hq.
Qed.

(** In every world the server reaches, a queue entry's number is its
    position in the queue, so that no two entries share a number and a save
    writes the entry it was made for. *)
Theorem queue_entries_numbered (w : World) :
  reachable w →
  (∀ i q, queueDb w !! i = Some q → QueueEntry._id q = i)
  ∧ (∀ i j q1 q2, queueDb w !! i = Some q1 → queueDb w !! j = Some q2 →
       QueueEntry._id q1 = QueueEntry._id q2 → i = j).
Proof.
  intros Hreach. split.
  - intros i q Hi. by apply (reachable_queue_shape w Hreach).
  - intros i j q1 q2 Hi Hj Heq.
    apply (reachable_queue_shape w Hreach) in Hi as [<- _].
    by apply (reachable_queue_shape w Hreach) in Hj as [<- _].
Qed.

(** X6. In every world the server reaches, the fields of each queue entry agree
    with its status: an entry in error has a message, a completed entry has
    a processing time and no message, a pending entry has neither. *)
Theorem queue_entries_coherent (w : World) :
  reachable w →
  ∀ q, q ∈ queueDb w →
    (QueueEntry.status q = Status.error → is_Some (QueueEntry.error q))
    ∧ (QueueEntry.status q = Status.completed →
         is_Some (QueueEntry.processedAt q) ∧ QueueEntry.error q = None)
    ∧ (QueueEntry.status q = Status.pending →
         QueueEntry.processedAt q = None ∧ QueueEntry.error q = None).
Proof.
  intros Hreach q [i Hi]%list_elem_of_lookup.
  apply (reachable_queue_shape w Hreach) in Hi as [_ Hcoh].
  unfold coherent in Hcoh.
  destruct (QueueEntry.status q); split_and!; done.
Qed.

(** ** Further properties of extraction and interpretation *)

Lemma hasCustomization_text (props : gmap string string) :
  hasCustomization props = true →
  customTextOf props ≠ ""
  ∧ ∃ k, k ∈ triggerKeys ∧ props !! k = Some (customTextOf props).
Proof.
  unfold hasCustomization, customTextOf, orElse, truthy, triggerKeys.
  intros Hhas.
  destruct (props !! "Custom Text") as [v1|] eqn:H1;
    [destruct (String.eqb_spec v1 "")|].
  2: { split; [done|]. exists "Custom Text". split; [|done].
       apply list_elem_of_here. }
  all: destruct (props !! "Player Name") as [v2|] eqn:H2;
    [destruct (String.eqb_spec v2 "")|].
  2,5: split; [done|]; exists "Player Name"; split; [|done];
       apply list_elem_of_further, list_elem_of_here.
  all: destruct (props !! "Jersey Number") as [v3|] eqn:H3;
    [destruct (String.eqb_spec v3 "")|].
  2,5,8,11: split; [done|]; exists "Jersey Number"; split; [|done];
       do 2 apply list_elem_of_further; apply list_elem_of_here.
  all: destruct (props !! "Custom Message") as [v4|] eqn:H4;
    [destruct (String.eqb_spec v4 "")|]; simpl in Hhas; try done.
  all: split; [done|]; exists "Custom Message"; split; [|done];
       do 3 apply list_elem_of_further; apply list_elem_of_here.
Qed.

(** X9. Every queued candidate has a customization text: the text chosen at
    compilation is non-empty and is the value of one of the four trigger
    keys of the candidate. A candidate can therefore only be dropped for
    its placements. *)
Theorem candidates_have_text (order : Order.t) (c : CustomizedItem.t) :
  c ∈ extractCustomizedItems order →
  customTextOf (CustomizedItem.properties c) ≠ ""
  ∧ ∃ k, k ∈ triggerKeys
         ∧ CustomizedItem.properties c !! k
           = Some (customTextOf (CustomizedItem.properties c)).
Proof.
  unfold extractCustomizedItems. rewrite fold_extractStep. simpl.
  intros (item & _ & Hc)%list_elem_of_omap. unfold candidateOf in Hc.
  destruct (LineItem.properties item) as [properties|]; [|done].
  rewrite <- hasCustomization_lastValue in Hc.
  destruct (hasCustomization (buildProps properties)) eqn:Hhas; [|done].
  simplify_eq/=. by apply hasCustomization_text.
Qed.

(** X10. Line items are judged one by one: the candidates of an order whose line
    items are those of a first order followed by those of a second are the
    candidates of the first followed by the candidates of the second. *)
Theorem extraction_of_appended_items (order order1 order2 : Order.t) :
  Order.line_items order
  = Order.line_items order1 ++ Order.line_items order2 →
  extractCustomizedItems order
  = extractCustomizedItems order1 ++ extractCustomizedItems order2.
Proof.
  intros Hitems. unfold extractCustomizedItems.
  rewrite !fold_extractStep, Hitems. simpl. apply omap_app.
Qed.

Lemma split_cons (sep : ascii) (s : string) :
  ∃ piece pieces, split sep s = piece :: pieces.
Proof.
  induction s as [|c s (piece & pieces & IH)]; simpl; [eauto|].
  destruct (Ascii.eqb c sep); [eauto|]. rewrite IH. eauto.
Qed.

Lemma split_length (sep : ascii) (s : string) :
  length (split sep s) = S (occurrences sep s).
Proof.
  induction s as [|c s IH]; simpl; [done|].
  destruct (Ascii.eqb c sep); simpl; [by rewrite IH|].
  destruct (split_cons sep s) as (piece & pieces & Hs).
  rewrite Hs in *. simpl in *. done.
Qed.

(** X11. The requested names are empty exactly when "Placement" is absent or
    empty; otherwise there is one name more than there are commas in the
    value, so that a trailing or doubled comma requests an empty name. *)
Theorem placement_names_count (props : gmap string string) :
  (placementNames props = [] ↔
     props !! "Placement" = None ∨ props !! "Placement" = Some "")
  ∧ (∀ s, props !! "Placement" = Some s → s ≠ "" →
       length (placementNames props) = S (occurrences "," s)).
Proof.
  unfold placementNames. split.
  - split; [|intros H; by rewrite orElse_falsy].
    destruct (props !! "Placement") as [s|]; [|by left].
    destruct (String.eqb_spec s "") as [->|Hs]; [by right|].
    rewrite orElse_truthy by done.
    destruct (split_cons "," s) as (piece & pieces & ->). done.
  - intros s -> Hs. rewrite orElse_truthy by done.
    by rewrite length_fmap, split_length.
Qed.

Lemma join_cons (sep : ascii) (piece next : string) (rest : list string) :
  join sep (piece :: next :: rest)
  = piece +:+ String sep (join sep (next :: rest)).
Proof. done. Qed.

(** X12. The pieces of [split] joined again with the separator give the string
    back, and no piece contains the separator. *)
Theorem split_join (sep : ascii) (s : string) :
  join sep (split sep s) = s
  ∧ Forall (λ piece, contains sep piece = false) (split sep s).
Proof.
  induction s as [|c s [IHj IHc]]; [by repeat constructor|].
  cbn [split].
  destruct (split_cons sep s) as (piece & pieces & Hs).
  rewrite Hs in *.
  destruct (Ascii.eqb c sep) eqn:Hc.
  - apply Ascii.eqb_eq in Hc as ->.
    split; [by rewrite join_cons, IHj|by constructor].
  - apply Forall_cons in IHc as [Hpiece Hpieces]. split.
    + rewrite <- IHj. destruct pieces as [|next pieces]; [done|].
      by rewrite !join_cons.
    + constructor; [|done]. simpl. by rewrite Hc.
Qed.

Lemma omap_nil_iff {A B} (f : A → option B) (l : list A) :
  omap f l = [] ↔ ∀ x, x ∈ l → f x = None.
Proof.
  induction l as [|a l IH]; simpl.
  - split; [|done]. by intros _ x ?%elem_of_nil.
  - destruct (f a) eqn:Hfa.
    + split; [done|]. intros Hnone.
      specialize (Hnone a (list_elem_of_here _ _)). congruence.
    + rewrite IH. split.
      * intros Hl x [->|Hx]%elem_of_cons; auto.
      * intros Hl x Hx. by apply Hl, list_elem_of_further.
Qed.

Lemma omap_length_le {A B} (f : A → option B) (l : list A) :
  (length (omap f l) ≤ length l)%nat.
Proof.
  induction l as [|a l IH]; simpl; [done|].
  destruct (f a); simpl; [apply le_n_S, IH|apply le_S, IH].
Qed.

Lemma findPlacement_None_iff settings (n : string) :
  findPlacement settings n = None ↔
  ∀ s p, settings = Some s → p ∈ GlobalSettings.placements s →
         Placement.name p ≠ n.
Proof.
  split; [|apply findPlacement_unmatched].
  intros Hnone s p -> Hp Hname. simpl in Hnone.
  apply list_elem_of_In in Hp.
  apply (find_none _ _ Hnone) in Hp.
  by apply bool_decide_eq_false in Hp.
Qed.

Lemma findPlacement_found (s : GlobalSettings.t) (p : Placement.t) :
  p ∈ GlobalSettings.placements s →
  is_Some (findPlacement (Some s) (Placement.name p)).
Proof.
  intros Hp.
  destruct (findPlacement (Some s) (Placement.name p)) eqn:Hfind; [done|].
  pose proof (proj1 (findPlacement_None_iff (Some s) (Placement.name p))
                Hfind s p eq_refl Hp) as Hne.
  done.
Qed.

(** X13. A candidate with a text gets no instruction exactly when no catalog
    placement bears one of its requested names (in particular when it
    requests none, or when there is no settings document). *)
Theorem no_instruction_iff_no_match settings (props : gmap string string) :
  customTextOf props ≠ "" →
  (itemCustomizations settings props = [] ↔
     ∀ n s p, n ∈ placementNames props → settings = Some s →
              p ∈ GlobalSettings.placements s → Placement.name p ≠ n).
Proof.
  intros Htext. rewrite itemCustomizations_text by done.
  rewrite forEachPlacement_omap, omap_nil_iff.
  split.
  - intros Hnone n s p Hn. apply findPlacement_None_iff.
    specialize (Hnone n Hn). by destruct (findPlacement settings n).
  - intros Hnone n Hn.
    assert (findPlacement settings n = None) as ->; [|done].
    apply findPlacement_None_iff. intros s p. by apply Hnone.
Qed.

(** X14. Every emitted instruction is a white text instruction whose value is
    the upper-cased text of the item and whose placement code and geometry
    are those of a catalog placement bearing one of the requested names:
    nothing is emitted for a placement outside the catalog. *)
Theorem instructions_from_catalog (s : GlobalSettings.t)
    (props : gmap string string) (c : Customization.t) :
  c ∈ itemCustomizations (Some s) props →
  Customization.type c = "text"
  ∧ Customization.color c = "white"
  ∧ Customization.value c = toUpperCase (customTextOf props)
  ∧ customTextOf props ≠ ""
  ∧ ∃ n p, n ∈ placementNames props
           ∧ p ∈ GlobalSettings.placements s
           ∧ Placement.name p = n
           ∧ Customization.placement c = Placement.code p
           ∧ Customization.coordinates c = Placement.coordinates p.
Proof.
  unfold itemCustomizations.
  destruct (String.eqb_spec (customTextOf props) "") as [|Htext];
    [by intros ?%elem_of_nil|]. simpl.
  destruct (0 <? length (placementNames props))%nat;
    [|by intros ?%elem_of_nil].
  rewrite forEachPlacement_omap. intros (n & Hn & Hc)%list_elem_of_omap.
  destruct (findPlacement (Some s) n) as [p|] eqn:Hp; simplify_eq/=.
  split_and!; try done. exists n, p.
  apply find_some in Hp as [Hin Hname].
  apply bool_decide_eq_true in Hname.
  split_and!; try done. by apply list_elem_of_In.
Qed.

(** X15. An item never gets more instructions than it requests names, and gets
    exactly one per requested name when it has a text and every requested
    name is borne by a placement of the catalog. *)
Theorem instruction_count settings (props : gmap string string) :
  (length (itemCustomizations settings props)
   ≤ length (placementNames props))%nat
  ∧ (∀ s, settings = Some s →
       customTextOf props ≠ "" →
       (∀ n, n ∈ placementNames props →
             ∃ p, p ∈ GlobalSettings.placements s ∧ Placement.name p = n) →
       length (itemCustomizations settings props)
       = length (placementNames props)).
Proof.
  split.
  - unfold itemCustomizations. destruct (_ && _); [|simpl; lia].
    rewrite forEachPlacement_omap. apply omap_length_le.
  - intros s -> Htext Hall. rewrite itemCustomizations_text by done.
    rewrite forEachPlacement_omap.
    induction (placementNames props) as [|n names IH]; [done|].
    destruct (Hall n (list_elem_of_here _ _)) as (p & Hp & <-).
    destruct (findPlacement_found s p Hp) as [p' Hp'].
    simpl in *. rewrite Hp'. simpl.
    f_equal. apply IH. intros m Hm. by apply Hall, list_elem_of_further.
Qed.

(** X16. Every line item of a production record comes from a queued item:
    its id, product id, variant id, sku, title and quantity are that item's,
    its instructions are all of that item's, and there is at least one;
    there are never more line items than queued items. *)
Theorem line_items_from_queue (q : QueueEntry.t) settings (now : Z) :
  (∀ li, li ∈ ProductionData.line_items (productionDataOf q settings now) →
     ProductionLineItem.customizations li ≠ []
     ∧ ∃ item, item ∈ QueueEntry.items q
         ∧ ProductionLineItem.id li = CustomizedItem.lineItemId item
         ∧ ProductionLineItem.product_id li = CustomizedItem.productId item
         ∧ ProductionLineItem.variant_id li = CustomizedItem.variantId item
         ∧ ProductionLineItem.sku li = CustomizedItem.sku item
         ∧ ProductionLineItem.title li = CustomizedItem.title item
         ∧ ProductionLineItem.quantity li = CustomizedItem.quantity item
         ∧ ProductionLineItem.customizations li
           = itemCustomizations settings (CustomizedItem.properties item))
  ∧ (length (ProductionData.line_items (productionDataOf q settings now))
     ≤ length (QueueEntry.items q))%nat.
Proof.
  simpl. rewrite fold_compileStep. simpl. split.
  - intros li (item & Hitem & Hli)%list_elem_of_omap.
    destruct (itemCustomizations settings (CustomizedItem.properties item))
      as [|c cs] eqn:Hcs; simplify_eq/=.
    split; [done|]. exists item. by split_and!.
  - apply omap_length_le.
Qed.

(** X17. With a settings document that has no placement, no queued item gets an
    instruction and the production record has no line item. *)
Theorem empty_catalog_no_line_items (q : QueueEntry.t) (s : GlobalSettings.t)
    (now : Z) :
  GlobalSettings.placements s = [] →
  ProductionData.line_items (productionDataOf q (Some s) now) = [].
Proof.
  intros Hempty. simpl. rewrite fold_compileStep. simpl.
  apply omap_nil_iff. intros item _.
  assert (itemCustomizations (Some s) (CustomizedItem.properties item) = [])
    as ->; [|done].
  unfold itemCustomizations. destruct (_ && _); [|done].
  rewrite forEachPlacement_omap. apply omap_nil_iff. intros n _.
  simpl. by rewrite Hempty.
Qed.

(** ** Further properties of compilation runs *)

Lemma generate_settings (q : QueueEntry.t) (w : World) :
  settingsDb (snd (generateProductionFile q w)) = settingsDb w.
Proof. unfold_run. by repeat (case_match; simplify_eq/=). Qed.

(** X7. Neither a compilation nor a whole webhook run writes the settings
    collection, whatever the outcomes of the persistence calls. *)
Theorem compilation_never_writes_settings (shop : string) (order : Order.t)
    (q : QueueEntry.t) (w : World) :
  settingsDb (snd (generateProductionFile q w)) = settingsDb w
  ∧ settingsDb (snd (webhookOrdersCreate shop order w)) = settingsDb w.
Proof.
  split; [apply generate_settings|].
  unfold webhookOrdersCreate, tryCatch, bind, ret.
  destruct (0 <? length (extractCustomizedItems order))%nat; [|done].
  match goal with
  | |- context [OrderQueue_create ?a ?b ?c ?d ?i w] =>
      assert (settingsDb (snd (OrderQueue_create a b c d i w)) = settingsDb w)
        as Hc by (unfold OrderQueue_create, bind, dbCall;
                  by repeat (case_match; simplify_eq/=));
      destruct (OrderQueue_create a b c d i w) as [[q0|e] w1]
  end; [|done].
  pose proof (generate_settings q0 w1) as Hg.
  destruct (generateProductionFile q0 w1) as [[q'|e] w2]; simpl in *;
    congruence.
Qed.

(** X8. A production record is logged only by a compilation that completes:
    either the run returns the entry completed and the console has gained
    the record built from the shop's settings and the clock, or the console
    is as before and a run that returns leaves the entry in error. *)
Theorem record_logged_only_on_completion (q : QueueEntry.t) (w : World) :
  (∃ q' w',
     generateProductionFile q w = (Ok q', w')
     ∧ QueueEntry.status q' = Status.completed
     ∧ console w'
       = console w
         ++ [productionDataOf q (settingsDb w !! QueueEntry.shopDomain q)
               (clock w)])
  ∨ (console (snd (generateProductionFile q w)) = console w
     ∧ ∀ q' w', generateProductionFile q w = (Ok q', w') →
                QueueEntry.status q' = Status.error).
Proof.
  unfold_run.
  repeat (case_match; simplify_eq/=);
    first [ left; eexists _, _; by split_and!
          | right; split; [done|]; by intros q' w' [= <- <-] ].
Qed.

(** ** The settings handlers *)

(** X18. For a shop that has a settings document, and persistence answering, the
    settings handler returns that document, whatever it holds, and leaves
    the world as it is. *)
Theorem getSettings_existing (shop : string) (w : World)
    (d : GlobalSettings.t) :
  settingsDb w !! shop = Some d →
  faults w = [] →
  getSettings shop w = (Ok (SendSettings d), w).
Proof.
  intros Hd Hf.
  unfold getSettings, tryCatch, bind, GlobalSettings_findOne, bind, dbCall.
  by rewrite Hf, Hd.
Qed.

(** X19. The settings handler never lets an exception out; when it answers 500
    it carries the message of the rejected persistence call and the
    settings collection is as before: no default is substituted. *)
Theorem getSettings_failure_writes_nothing (shop : string) (w : World) :
  (∃ r w', getSettings shop w = (Ok r, w'))
  ∧ (∀ code msg w', getSettings shop w = (Ok (SendError code msg), w') →
       code = 500 ∧ settingsDb w' = settingsDb w
       ∧ ∃ before rest, faults w = before ++ Some msg :: rest)
  ∧ (∀ msg rest, faults w = Some msg :: rest →
       getSettings shop w = (Ok (SendError 500 msg), setFaults rest w)).
Proof.
  unfold getSettings, tryCatch, bind, GlobalSettings_findOne,
    GlobalSettings_create, bind, dbCall, newDate, ret.
  split_and!.
  - repeat (case_match; simplify_eq/=); eauto.
  - intros code msg w'.
    repeat (case_match; simplify_eq/=); intros [= <- <- <-];
      split_and!; try done.
    all: try congruence.
    all: first [by eexists [], _ | by eexists [None], _].
  - intros msg rest ->. done.
Qed.

(** X20. The settings handler of one shop leaves the settings of every other
    shop as they are. *)
Theorem getSettings_other_shops (shop other : string) (w : World) :
  other ≠ shop →
  settingsDb (snd (getSettings shop w)) !! other = settingsDb w !! other.
Proof.
  intros Hne.
  unfold getSettings, tryCatch, bind, GlobalSettings_findOne,
    GlobalSettings_create, bind, dbCall, newDate, ret.
  repeat (case_match; simplify_eq/=); try done.
  all: by rewrite lookup_insert_ne.
Qed.

(** X24. When the update rejects, the replacement answers 500 with the message
    and the settings collection is as before. *)
Theorem put_rejected (shop : string) (body : SettingsBody.t) (w : World)
    (msg : string) (rest : list (option string)) :
  faults w = Some msg :: rest →
  putSettings shop body w = (Ok (SendError 500 msg), setFaults rest w).
Proof.
  intros Hf.
  unfold putSettings, tryCatch, bind, GlobalSettings_findOneAndUpdate, bind,
    dbCall, newDate, ret.
  by rewrite Hf.
Qed.


End Host.

(** ** The theorems at the sample data, with ASCII upper-casing *)

Lemma interpret_smith_sample :
  itemCustomizations asciiUpper (Some (defaultSettings sampleShop 0))
    {[ "Player Name" := "SMITH"; "Placement" := "Chest, Back" ]}
  = [ Customization.mk "text" "SMITH" "chest" "standard" "white"
        (Coordinates.mk 360 250 200 60 None);
      Customization.mk "text" "SMITH" "back" "standard" "white"
        (Coordinates.mk 360 300 280 100 None) ].
Proof.
  apply (interpret_smith_chest_back asciiUpper sampleShop 0). reflexivity.
Defined.

Lemma interpret_text_only_sample :
  itemCustomizations asciiUpper (Some (defaultSettings sampleShop 0))
    {[ "Player Name" := "SMITH" ]} = [].
Proof.
  apply (interpret_without_placement_or_text asciiUpper).
  left. left. reflexivity.
Defined.

Lemma font_resolution_sample :
  ∃ c, c ∈ itemCustomizations asciiUpper (Some (defaultSettings sampleShop 0))
             {[ "Player Name" := "Jones"; "Placement" := "Back";
                "Font Style" := "Varsity Style (+$3)" ]}
       ∧ Customization.font c = "varsity".
Proof.
  exists (Customization.mk "text" "JONES" "back" "varsity" "white"
            (Coordinates.mk 360 300 280 100 None)).
  assert (Customization.mk "text" "JONES" "back" "varsity" "white"
            (Coordinates.mk 360 300 280 100 None)
          ∈ itemCustomizations asciiUpper
              (Some (defaultSettings sampleShop 0))
              {[ "Player Name" := "Jones"; "Placement" := "Back";
                 "Font Style" := "Varsity Style (+$3)" ]}) as Hin.
  { vm_compute. apply list_elem_of_here. }
  split; [exact Hin|].
  destruct (font_resolution asciiUpper _ _ _ Hin)
    as (label & _ & Hlabel & Hfirst & _).
  rewrite (Hfirst [Font.mk 1 "Standard" "standard" 0 "Arial"
                     "Standard Font (Free)"]
             (Font.mk 2 "Varsity" "varsity" 3 "Impact" "Varsity Style (+$3)")
             [Font.mk 3 "Script" "script" 5 "BrushScriptMT"
                "Script Style (+$5)";
              Font.mk 4 "Modern" "modern" 3 "HelveticaNeue-Light"
                "Modern Style (+$3)"]).
  - reflexivity.
  - reflexivity.
  - symmetry. apply Hlabel; [reflexivity|discriminate].
  - intros g Hg. apply list_elem_of_singleton in Hg. subst g. simpl.
    rewrite (Hlabel "Varsity Style (+$3)"); [discriminate|reflexivity|discriminate].
Defined.

Lemma unmatched_placement_sample :
  itemCustomizations asciiUpper (Some (defaultSettings sampleShop 0))
    {[ "Player Name" := "Jones"; "Placement" := "Chest, Collar, Back" ]}
  = [ Customization.mk "text" "JONES" "chest" "standard" "white"
        (Coordinates.mk 360 250 200 60 None);
      Customization.mk "text" "JONES" "back" "standard" "white"
        (Coordinates.mk 360 300 280 100 None) ].
Proof.
  destruct (unmatched_placement_skipped asciiUpper
              (Some (defaultSettings sampleShop 0))
              {[ "Player Name" := "Jones";
                 "Placement" := "Chest, Collar, Back" ]}
              ["Chest"] ["Back"] "Collar") as [Heq _].
  - vm_compute. discriminate.
  - reflexivity.
  - intros s p [= <-] Hp. simpl in Hp. unfold defaultPlacements in Hp.
    repeat (apply elem_of_cons in Hp as [-> | Hp]; [discriminate|]).
    by apply elem_of_nil in Hp.
  - rewrite Heq. reflexivity.
Defined.

Lemma compile_without_catalog_sample :
  ∃ q' w' pd,
    generateProductionFile asciiUpper sampleEntry
      (mkWorld ∅ [sampleEntry] 5 [] []) = (Ok q', w')
    ∧ settingsDb w' = ∅
    ∧ console w' = [pd]
    ∧ ProductionData.line_items pd = []
    ∧ QueueEntry.status q' = Status.completed
    ∧ QueueEntry.processedAt q' = Some 5.
Proof.
  destruct (compile_without_catalog asciiUpper sampleEntry
              (mkWorld ∅ [sampleEntry] 5 [] []))
    as (q' & w' & pd & Hrun & Hs & Hc & Hl & Hst & Hp & _).
  - reflexivity.
  - reflexivity.
  - exists q', w', pd. repeat split; assumption.
Defined.

Lemma compile_equal_up_to_clock_sample :
  ∃ pd1 pd2,
    console (snd (generateProductionFile asciiUpper sampleEntry
                    (sampleWorld 1 []))) = [pd1]
    ∧ console (snd (generateProductionFile asciiUpper sampleEntry
                      (sampleWorld 2 []))) = [pd2]
    ∧ ProductionData.line_items pd1 = ProductionData.line_items pd2
    ∧ ProductionData.created_at pd1 = 1
    ∧ ProductionData.created_at pd2 = 2.
Proof.
  destruct (compile_equal_up_to_clock asciiUpper sampleEntry
              (sampleWorld 1 []) (sampleWorld 2 []))
    as (pd1 & pd2 & w1 & w2 & Hr1 & Hr2 & Hc1 & Hc2 & _ & _ & _ & Hl
        & Ht1 & Ht2 & _).
  - reflexivity.
  - reflexivity.
  - reflexivity.
  - exists pd1, pd2. rewrite Hr1, Hr2. repeat split; assumption.
Defined.

Lemma compile_failure_recorded_sample :
  (∃ w',
     webhookOrdersCreate asciiUpper decimal sampleShop sampleOrder
       (freshWorld 7 [None; Some "lookup failed"])
     = (Ok (SendText 200 "OK"), w')
     ∧ (λ q, (QueueEntry.status q, QueueEntry.error q)) <$> queueDb w'
       = [(Status.error, Some "lookup failed")])
  ∧ (∃ w',
       webhookOrdersCreate asciiUpper decimal sampleShop sampleOrder
         (freshWorld 7 [None; Some "lookup failed"; Some "save failed"])
       = (Ok (SendError 500 "save failed"), w')
       ∧ queueDb w' = [queuedEntry]).
Proof.
  split.
  - destruct (compile_failure_recorded asciiUpper decimal queuedEntry
                (queuedWorld [Some "lookup failed"])
                (mkError "lookup failed")
                (mkFrame (queuedWorld []) queuedEntry) eq_refl)
      as [Hcaught _].
    destruct (Hcaught I) as (q' & w' & _ & Hst & Herr & Hdb & Hhook).
    exists w'. split.
    + apply (Hhook sampleShop sampleOrder
               (freshWorld 7 [None; Some "lookup failed"])).
      * vm_compute. discriminate.
      * reflexivity.
    + rewrite Hdb. simpl. by rewrite Hst, Herr.
  - destruct (compile_failure_recorded asciiUpper decimal queuedEntry
                (queuedWorld [Some "lookup failed"; Some "save failed"])
                (mkError "lookup failed")
                (mkFrame (queuedWorld [Some "save failed"]) queuedEntry)
                eq_refl)
      as [_ Hescapes].
    destruct (Hescapes "save failed" [] eq_refl)
      as (q' & w' & _ & _ & _ & _ & Hdb & Hhook).
    exists w'. split.
    + apply (Hhook sampleShop sampleOrder
               (freshWorld 7 [None; Some "lookup failed";
                              Some "save failed"])).
      * vm_compute. discriminate.
      * reflexivity.
    + exact Hdb.
Defined.

Lemma default_catalog_created_sample :
  getSettings sampleShop (freshWorld 3 [])
  = (Ok (SendSettings (defaultSettings sampleShop 3)),
     mkWorld {[ sampleShop := defaultSettings sampleShop 3 ]} [] 3 [] []).
Proof.
  destruct (default_catalog_created sampleShop (freshWorld 3 []))
    as [Hget _].
  - reflexivity.
  - reflexivity.
  - rewrite Hget. reflexivity.
Defined.

Lemma status_never_processing_sample :
  Forall (λ q, QueueEntry.status q ≠ Status.processing)
    (queueDb (snd (webhookOrdersCreate asciiUpper decimal sampleShop sampleOrder
                     (freshWorld 3 [])))).
Proof.
  apply Forall_forall.
  apply (status_never_processing asciiUpper decimal).
  apply reach_webhook, reach_start. reflexivity.
Defined.

(** ** Where the stated claims fail *)

(** C2. The same queue entry compiled against the same catalog at clock
    readings 1 and 2 logs two different records, and the entry handed in
    (pending) is not the entry that comes out (completed, stamped). *)
Lemma compile_twice_differs :
  console (snd (generateProductionFile asciiUpper sampleEntry
                  (sampleWorld 1 [])))
  ≠ console (snd (generateProductionFile asciiUpper sampleEntry
                    (sampleWorld 2 [])))
  ∧ fst (generateProductionFile asciiUpper sampleEntry (sampleWorld 1 []))
    ≠ Ok sampleEntry
  ∧ QueueEntry.status <$>
      queueDb (snd (generateProductionFile asciiUpper sampleEntry
                      (sampleWorld 1 [])))
    = [Status.completed].
Proof.
  split_and!.
  - intros Heq.
    apply (f_equal (fmap ProductionData.created_at)) in Heq.
    vm_compute in Heq. discriminate.
  - intros Heq.
    assert (∀ r, r = Ok sampleEntry →
              match r with
              | Ok q => QueueEntry.status q = Status.pending
              | Throw _ => False
              end) as Hst by (by intros r ->).
    apply Hst in Heq. vm_compute in Heq. discriminate.
  - reflexivity.
Qed.

(** C7. The settings lookup rejects and then the save of the error status
    rejects too: the second exception leaves [generateProductionFile], the
    webhook answers 500 instead of 200, and the stored entry is still
    pending, without error message. *)
Lemma compile_failure_escapes :
  fst (generateProductionFile asciiUpper sampleEntry
         (sampleWorld 7 [Some "lookup failed"; Some "save failed"]))
  = Throw (mkError "save failed")
  ∧ fst (webhookOrdersCreate asciiUpper decimal sampleShop sampleOrder
           (freshWorld 7 [None; Some "lookup failed"; Some "save failed"]))
    = Ok (SendError 500 "save failed")
  ∧ (λ q, (QueueEntry.status q, QueueEntry.error q)) <$>
      queueDb (snd (webhookOrdersCreate asciiUpper decimal sampleShop sampleOrder
                      (freshWorld 7 [None; Some "lookup failed";
                                     Some "save failed"])))
    = [(Status.pending, None)].
Proof. split_and!; reflexivity. Qed.

(** ** The further properties at the sample data *)

Lemma webhook_without_candidates_sample :
  webhookOrdersCreate asciiUpper decimal sampleShop plainOrder (freshWorld 3 [])
  = (Ok (SendText 200 "OK"), freshWorld 3 []).
Proof.
  apply (webhook_without_candidates asciiUpper decimal).
  intros item properties k Hitem Hprops Hk.
  apply list_elem_of_singleton in Hitem. subst item. simplify_eq/=.
  unfold triggerKeys in Hk.
  repeat (apply elem_of_cons in Hk as [-> | Hk]; [left; reflexivity|]).
  by apply elem_of_nil in Hk.
Defined.

Lemma webhook_queues_and_completes_sample :
  ∃ q w',
    webhookOrdersCreate asciiUpper decimal sampleShop sampleOrder (freshWorld 3 [])
    = (Ok (SendText 200 "OK"), w')
    ∧ queueDb w' = [q]
    ∧ QueueEntry._id q = 0%nat
    ∧ QueueEntry.orderId q = "1001"
    ∧ QueueEntry.status q = Status.completed
    ∧ QueueEntry.processedAt q = Some 3.
Proof.
  destruct (webhook_queues_and_completes asciiUpper decimal sampleShop sampleOrder
              (freshWorld 3 []))
    as (q & w' & Hrun & Hq & _ & _ & Hid & _ & Ho & _ & _ & Hst & Hp & _).
  - reflexivity.
  - vm_compute. discriminate.
  - exists q, w'. repeat split; assumption.
Defined.

Lemma webhook_create_rejected_sample :
  webhookOrdersCreate asciiUpper decimal sampleShop sampleOrder
    (freshWorld 3 [Some "queue unavailable"])
  = (Ok (SendError 500 "queue unavailable"), freshWorld 3 []).
Proof.
  apply (webhook_create_rejected asciiUpper decimal sampleShop sampleOrder
           (freshWorld 3 [Some "queue unavailable"]) "queue unavailable" []).
  - reflexivity.
  - vm_compute. discriminate.
Defined.

Lemma queue_entries_coherent_sample :
  Forall (λ q, QueueEntry.status q = Status.error
               ∧ is_Some (QueueEntry.error q))
    (queueDb (snd (webhookOrdersCreate asciiUpper decimal sampleShop sampleOrder
                     (freshWorld 3 [None; Some "lookup failed"])))).
Proof.
  apply Forall_forall. intros q Hq.
  assert (QueueEntry.status q = Status.error) as Hst.
  { vm_compute in Hq. apply list_elem_of_singleton in Hq. by subst q. }
  split; [done|].
  eapply (queue_entries_coherent asciiUpper decimal); [|exact Hq|exact Hst].
  apply reach_webhook, reach_start. reflexivity.
Defined.

Lemma candidates_have_text_sample :
  sampleCandidate ∈ extractCustomizedItems sampleOrder
  ∧ customTextOf (CustomizedItem.properties sampleCandidate) ≠ ""
  ∧ ∃ k, k ∈ triggerKeys
         ∧ CustomizedItem.properties sampleCandidate !! k
           = Some (customTextOf (CustomizedItem.properties sampleCandidate)).
Proof.
  assert (sampleCandidate ∈ extractCustomizedItems sampleOrder) as Hin.
  { vm_compute. apply list_elem_of_here. }
  split; [exact Hin|].
  exact (candidates_have_text sampleOrder sampleCandidate Hin).
Defined.

Lemma extraction_of_appended_items_sample :
  extractCustomizedItems sampleOrder
  = extractCustomizedItems plainOrder ++ extractCustomizedItems jerseyOrder.
Proof.
  apply (extraction_of_appended_items sampleOrder plainOrder jerseyOrder).
  reflexivity.
Defined.

Lemma no_instruction_iff_no_match_sample :
  itemCustomizations asciiUpper (Some (defaultSettings sampleShop 0))
    collarProps = []
  ∧ (itemCustomizations asciiUpper (Some (defaultSettings sampleShop 0))
       backProps = [] → False).
Proof.
  split.
  - apply (no_instruction_iff_no_match asciiUpper).
    + vm_compute. discriminate.
    + intros n s p Hn [= <-] Hp. change (n ∈ ["Collar"]) in Hn.
      apply list_elem_of_singleton in Hn. subst n.
      simpl in Hp. unfold defaultPlacements in Hp.
      repeat (apply elem_of_cons in Hp as [-> | Hp]; [discriminate|]).
      by apply elem_of_nil in Hp.
  - intros Hempty.
    assert (customTextOf backProps ≠ "") as Htext
      by (vm_compute; discriminate).
    apply (proj1 (no_instruction_iff_no_match asciiUpper
                    (Some (defaultSettings sampleShop 0)) backProps Htext)
             Hempty "Back" (defaultSettings sampleShop 0)
             (Placement.mk 2 "Back" "back" 5
                (Coordinates.mk 360 300 280 100 None))).
    + vm_compute. apply list_elem_of_here.
    + reflexivity.
    + apply list_elem_of_further, list_elem_of_here.
    + reflexivity.
Defined.

Lemma instruction_count_sample :
  length (itemCustomizations asciiUpper
            (Some (defaultSettings sampleShop 0)) smithProps) = 2%nat.
Proof.
  destruct (instruction_count asciiUpper
              (Some (defaultSettings sampleShop 0)) smithProps)
    as [_ Hall].
  rewrite (Hall (defaultSettings sampleShop 0)).
  - reflexivity.
  - reflexivity.
  - vm_compute. discriminate.
  - intros n Hn. change (n ∈ ["Chest"; "Back"]) in Hn.
    apply elem_of_cons in Hn as [-> | Hn].
    + exists (Placement.mk 1 "Chest" "chest" 5
                (Coordinates.mk 360 250 200 60 None)).
      split; [apply list_elem_of_here|reflexivity].
    + apply list_elem_of_singleton in Hn. subst n.
      exists (Placement.mk 2 "Back" "back" 5
                (Coordinates.mk 360 300 280 100 None)).
      split; [apply list_elem_of_further, list_elem_of_here|reflexivity].
Defined.

Lemma instructions_from_catalog_sample :
  ∃ c, c ∈ itemCustomizations asciiUpper
             (Some (defaultSettings sampleShop 0)) backProps
       ∧ Customization.value c = "JONES"
       ∧ Customization.color c = "white".
Proof.
  exists (Customization.mk "text" "JONES" "back" "standard" "white"
            (Coordinates.mk 360 300 280 100 None)).
  assert (Customization.mk "text" "JONES" "back" "standard" "white"
            (Coordinates.mk 360 300 280 100 None)
          ∈ itemCustomizations asciiUpper
              (Some (defaultSettings sampleShop 0)) backProps) as Hin.
  { vm_compute. apply list_elem_of_here. }
  split; [exact Hin|].
  destruct (instructions_from_catalog asciiUpper _ _ _ Hin)
    as (_ & Hcolor & Hvalue & _).
  split; [exact Hvalue|exact Hcolor].
Defined.

Lemma empty_catalog_no_line_items_sample :
  ProductionData.line_items
    (productionDataOf asciiUpper sampleEntry (Some bareSettings) 5) = [].
Proof.
  apply (empty_catalog_no_line_items asciiUpper). reflexivity.
Defined.

Lemma getSettings_existing_sample :
  getSettings sampleShop (sampleWorld 4 [])
  = (Ok (SendSettings (defaultSettings sampleShop 0)), sampleWorld 4 []).
Proof.
  apply getSettings_existing; reflexivity.
Defined.

Lemma getSettings_other_shops_sample :
  settingsDb (snd (getSettings "other.myshopify.com" (sampleWorld 4 [])))
    !! sampleShop
  = Some (defaultSettings sampleShop 0).
Proof.
  rewrite (getSettings_other_shops "other.myshopify.com" sampleShop).
  - reflexivity.
  - discriminate.
Defined.

Lemma put_rejected_sample :
  putSettings sampleShop collarBody (sampleWorld 4 [Some "write failed"])
  = (Ok (SendError 500 "write failed"), sampleWorld 4 []).
Proof.
  apply (put_rejected sampleShop collarBody
           (sampleWorld 4 [Some "write failed"]) "write failed" []).
  reflexivity.
Defined.
